(** * Roommate matching: the compatibility scorer, the ranker and the chat key

    A shallow embedding of the pure functions of [src/pages/SwipeMatch.jsx]
    ([toNumber], [asArrayOfLowercase], [calculateMatchScore],
    [rankProfilesWithMatchScore]) and of [getChatId] in [src/pages/Chat.jsx],
    and of the handlers of the pages around them: signing up, the profile
    form, the swipe page, the mutual likes, the chat and the profile
    preview.

    JavaScript numbers are IEEE 754 binary64 values, so they are Rocq's
    primitive [float]s; strings are sequences of UTF-16 code units; a profile
    is a document of the [users] collection, a finite map from field names to
    values. *)

From Stdlib Require Import ZArith List Floats Lia Sorted Permutation.
From stdpp Require Import base gmap strings list.

Set Warnings "-register-all".

(** ** The language: values and the built-in operations the sources call *)

Module JS.

(** A string is its sequence of UTF-16 code units. *)
Definition jsstring := list N.

(** The code units of a literal written with one-byte characters. *)
Definition str (s : string) : jsstring :=
  List.map Ascii.N_of_ascii (String.list_ascii_of_string s).

(** What a document field can hold, and [undefined] for a field that is
    not there. (The store's own wrapper objects, timestamps and the like,
    are left out; plain maps are objects.) *)
Inductive value : Type :=
| VUndefined
| VNull
| VBool (b : bool)
| VNum (x : float)
| VStr (s : jsstring)
| VArr (l : list value)
| VObj (m : gmap string value).

(** An object read by property name: [o.k] is [undefined] when [o] has no
    property [k]. *)
Definition prop (o : gmap string value) (k : string) : value :=
  default VUndefined (o !! k).

(** The operations whose full definition is the engine's: Unicode case
    mapping and the conversions between numbers and their decimal text.
    The scorer is verified against any engine. *)
Class Engine := {
  toLowerCase : jsstring -> jsstring;
  StringToNumber : jsstring -> float;
  NumberToString : float -> jsstring;
  toLowerCase_empty : toLowerCase [] = []
}.

(** [ToBoolean]: what [!v] and [if (v)] test. *)
Definition ToBoolean (v : value) : bool :=
  match v with
  | VUndefined | VNull => false
  | VBool b => b
  | VNum x => negb (is_zero x || is_nan x)
  | VStr s => negb (Nat.eqb (length s) 0)
  | VArr _ | VObj _ => true
  end.

(** [Array.prototype.join]. *)
Fixpoint join (sep : jsstring) (parts : list jsstring) : jsstring :=
  match parts with
  | [] => []
  | [p] => p
  | p :: rest => p ++ sep ++ join sep rest
  end.

Section Conversions.
Context {E : Engine}.

(** [ToString], which [String(v)] and template literals apply. An array
    prints its elements joined by commas, [undefined] and [null]
    elements as the empty string. *)
Fixpoint ToString (v : value) : jsstring :=
  match v with
  | VUndefined => str "undefined"
  | VNull => str "null"
  | VBool true => str "true"
  | VBool false => str "false"
  | VNum x => NumberToString x
  | VStr s => s
  | VArr l =>
      join (str ",")
        (List.map (fun e => match e with
                            | VUndefined | VNull => []
                            | _ => ToString e
                            end) l)
  | VObj _ => str "[object Object]"
  end.

(** [ToPrimitive]: an array or object becomes its string. *)
Definition ToPrimitive (v : value) : value :=
  match v with
  | VArr _ | VObj _ => VStr (ToString v)
  | _ => v
  end.

(** [ToNumber], which [Number(v)] and the arithmetic operators apply. *)
Definition ToNumber (v : value) : float :=
  match v with
  | VUndefined => nan
  | VNull => 0
  | VBool true => 1
  | VBool false => 0
  | VNum x => x
  | VStr s => StringToNumber s
  | VArr _ | VObj _ => StringToNumber (ToString v)
  end.
End Conversions.

(** [v === x] for a number [x]: only a number can be strictly equal to a
    number, and [NaN] is equal to nothing. *)
Definition strict_eq_num (v : value) (x : float) : bool :=
  match v with
  | VNum y => (y =? x)%float
  | _ => false
  end.

Definition Array_isArray (v : value) : bool :=
  match v with VArr _ => true | _ => false end.

Definition elements (v : value) : list value :=
  match v with VArr l => l | _ => [] end.

Definition Number_isNaN (x : float) : bool := is_nan x.

(** [Number.MIN_VALUE], the smallest positive number, [5e-324]. *)
Definition Number_MIN_VALUE : float := 0x1p-1074.

(** White space and line terminators, the code units [trim] removes. *)
Definition is_white_space (c : N) : bool :=
  existsb (N.eqb c)
    [9; 10; 11; 12; 13; 32; 160; 5760; 8192; 8193; 8194; 8195; 8196; 8197;
     8198; 8199; 8200; 8201; 8202; 8232; 8233; 8239; 8287; 12288; 65279]%N.

Fixpoint dropWhile {A} (f : A -> bool) (l : list A) : list A :=
  match l with
  | [] => []
  | x :: l' => if f x then dropWhile f l' else l
  end.

(** [String.prototype.trim]. *)
Definition trim (s : jsstring) : jsstring :=
  rev (dropWhile is_white_space (rev (dropWhile is_white_space s))).

Definition jsstring_eqb (a b : jsstring) : bool := bool_decide (a = b).

(** [Array.prototype.includes] on an array of strings. *)
Definition includes (l : list jsstring) (s : jsstring) : bool :=
  existsb (jsstring_eqb s) l.

(** [a < b] on strings: code unit by code unit. *)
Fixpoint str_ltb (a b : jsstring) : bool :=
  match a, b with
  | _, [] => false
  | [], _ :: _ => true
  | x :: a', y :: b' =>
      if (x <? y)%N then true
      else if (y <? x)%N then false
      else str_ltb a' b'
  end.

(** The relational operator [u < v]: two strings compare as strings,
    anything else as numbers, and a comparison with [NaN] is false. *)
Definition lessThan {E : Engine} (u v : value) : bool :=
  match ToPrimitive u, ToPrimitive v with
  | VStr a, VStr b => str_ltb a b
  | pu, pv => (ToNumber pu <? ToNumber pv)%float
  end.

(** The number an integer denotes (an array length, a rounded score). *)
Definition of_Z (k : Z) : float :=
  SF2Prim (binary_normalize prec emax k 0 false).

Definition of_nat (n : nat) : float := of_Z (Z.of_nat n).

Definition Math_abs (x : float) : float := abs x.

(** [Math.max] and [Math.min] of two numbers: [NaN] if either is, and
    [+0] is larger than [-0]. *)
Definition Math_max (a b : float) : float :=
  if is_nan a || is_nan b then nan
  else if (a <? b)%float then b
  else if (b <? a)%float then a
  else if get_sign a then b else a.

Definition Math_min (a b : float) : float :=
  if is_nan a || is_nan b then nan
  else if (a <? b)%float then a
  else if (b <? a)%float then b
  else if get_sign a then a else b.

(** [Math.round]: the integer closest to [x], a tie going up; [x] itself
    when it is an integer already, infinite or [NaN]; [-0] for
    [-0.5 <= x <= -0]. A finite [x] is [m * 2^e] exactly. *)
Definition Math_round (x : float) : float :=
  match Prim2SF x with
  | S754_finite s m e =>
      if (0 <=? e)%Z then x
      else
        let n := if s then Z.neg m else Z.pos m in
        let k := Z.shiftr (n + 2 ^ (- e - 1)) (- e) in
        if (k =? 0)%Z then (if s then neg_zero else zero) else of_Z k
  | _ => x
  end.

(** [Array.prototype.sort] with a comparator. The language requires the
    sort to be stable and reads a comparator result [v] as: [a] after [b]
    when [v > 0], and [NaN] as [0]. A stable insertion sort stands for the
    engine's algorithm: with a consistent comparator every stable sort
    returns the same array. *)
Section Sort.
Context {A : Type} (comparefn : A -> A -> float).

Fixpoint insert_sorted (x : A) (l : list A) : list A :=
  match l with
  | [] => [x]
  | y :: l' =>
      if (0 <? comparefn x y)%float then y :: insert_sorted x l'
      else x :: l
  end.

Definition sort (l : list A) : list A := foldr insert_sorted [] l.
End Sort.

End JS.

Import JS.

(** ** [src/pages/SwipeMatch.jsx] *)

Abbreviation profile := (gmap string value).

Section SwipeMatch.
Context {E : Engine}.

(** [toNumber(value)]: [null] for a missing value or one that does not
    convert to a number, the number otherwise. *)
Definition toNumber (value : value) : JS.value :=
  if negb (ToBoolean value) && negb (strict_eq_num value 0) then VNull
  else
    let n := ToNumber value in
    if Number_isNaN n then VNull else VNum n.

(** [asArrayOfLowercase(value)]. *)
Definition asArrayOfLowercase (value : value) : list jsstring :=
  if negb (ToBoolean value) then []
  else if negb (Array_isArray value) then []
  else
    List.filter (fun v => (0 <? length v)%nat)
      (List.map (fun v => toLowerCase (trim (ToString v))) (elements value)).

(** The three amounts [calculateMatchScore] adds to [score], one per
    block of the function. *)
Definition budgetPoints (me other : profile) : float :=
  let myBudget := toNumber (prop me "budget") in
  let theirBudget := toNumber (prop other "budget") in
  if ToBoolean myBudget && ToBoolean theirBudget then
    let diff := Math_abs (ToNumber myBudget - ToNumber theirBudget) in
    let maxDiff := (ToNumber myBudget * 0.5)%float in
    let ratio := Math_max 0 (1 - diff / maxDiff) in
    (ratio * 40)%float
  else 20%float.

(** Blocks 2 and 3 are the same code, on [neighborhoods] with weight 35
    and neutral value 18, and on [roommatePreferences] with 25 and 12. *)
Definition overlapPoints (field : string) (weight neutral : float)
    (me other : profile) : float :=
  let mine := asArrayOfLowercase (prop me field) in
  let theirs := asArrayOfLowercase (prop other field) in
  if (0 <? length mine)%nat && (0 <? length theirs)%nat then
    let shared := List.filter (fun n => includes theirs n) mine in
    let ratio := Math_min (of_nat (length shared) / of_nat (length mine)) 1 in
    (ratio * weight)%float
  else neutral.

Definition neighborhoodPoints : profile -> profile -> float :=
  overlapPoints "neighborhoods" 35 18.

Definition preferencePoints : profile -> profile -> float :=
  overlapPoints "roommatePreferences" 25 12.

(** [calculateMatchScore(me, other)]. *)
Definition calculateMatchScore (me other : profile) : float :=
  let score := 0%float in
  let score := (score + budgetPoints me other)%float in
  let score := (score + neighborhoodPoints me other)%float in
  let score := (score + preferencePoints me other)%float in
  Math_max 0 (Math_min 100 (Math_round score)).

(** [rankProfilesWithMatchScore(myProfile, others)]. *)
Definition rankProfilesWithMatchScore (myProfile : profile)
    (others : list profile) : list profile :=
  sort
    (fun a b =>
       (ToNumber (prop b "matchScore") - ToNumber (prop a "matchScore"))%float)
    (List.map
       (fun p => <["matchScore" := VNum (calculateMatchScore myProfile p)]> p)
       others).
End SwipeMatch.

(** ** [src/pages/Chat.jsx] *)

Section Chat.
Context {E : Engine}.

(** [getChatId(uid1, uid2)]. *)
Definition getChatId (uid1 uid2 : value) : value :=
  if negb (ToBoolean uid1) || negb (ToBoolean uid2) then VNull
  else if lessThan uid1 uid2
       then VStr (ToString uid1 ++ str "_" ++ ToString uid2)
       else VStr (ToString uid2 ++ str "_" ++ ToString uid1).
End Chat.

(** ** A reference engine

    An [Engine] to run the functions on concrete profiles: decimal text is
    converted to the nearest number (ties to even) and a number prints as
    its shortest decimal text that converts back, as the language
    prescribes; [toLowerCase] maps the letters [A]-[Z] and leaves every
    other code unit as it is, which is the language's mapping on Basic Latin
    text only. *)

Module Reference.
#[local] Open Scope Z_scope.

Definition lower_unit (c : N) : N :=
  if (65 <=? c)%N && (c <=? 90)%N then (c + 32)%N else c.

Definition toLowerCase (s : jsstring) : jsstring := List.map lower_unit s.

(** The number nearest to [m * 10^e10], for [0 <= m]. Beyond the cut-offs
    the value is above every finite number or below half the smallest. *)
Definition decimal (neg : bool) (m e10 : Z) : float :=
  let signed (x : float) := if neg then (- x)%float else x in
  if (m =? 0)%Z then signed 0%float
  else if (0 <=? e10)%Z then
    if (400 <? e10)%Z then signed infinity
    else signed (of_Z (m * 10 ^ e10))
  else if (e10 + Z.log2 m <? -1100)%Z then signed 0%float
  else
    let '(q, e, l) := SFdiv_core_binary prec emax m 0 (10 ^ (- e10)) 0 in
    SF2Prim (binary_round_aux prec emax neg q e l).

Definition digit_of (radix : Z) (c : N) : option Z :=
  let c := Z.of_N c in
  let d := if (48 <=? c) && (c <=? 57) then c - 48
           else if (97 <=? c) && (c <=? 122) then c - 87
           else if (65 <=? c) && (c <=? 90) then c - 55
           else radix in
  if d <? radix then Some d else None.

(** The longest prefix of digits: its value on top of [acc], how many
    digits it has, and the rest of the text. *)
Fixpoint span_digits (radix : Z) (s : jsstring) (acc : Z) (count : Z)
    : Z * Z * jsstring :=
  match s with
  | c :: s' =>
      match digit_of radix c with
      | Some d => span_digits radix s' (radix * acc + d) (count + 1)
      | None => (acc, count, s)
      end
  | [] => (acc, count, [])
  end.

Definition integer_literal (radix : Z) (s : jsstring) : float :=
  match span_digits radix s 0 0 with
  | (v, n, []) => if (0 <? n)%Z then of_Z v else nan
  | _ => nan
  end.

Definition exponent_part (s : jsstring) : option Z :=
  let '(neg, r) := match s with
                   | 43%N :: r => (false, r)
                   | 45%N :: r => (true, r)
                   | _ => (false, s)
                   end in
  match span_digits 10 r 0 0 with
  | (v, n, []) => if (0 <? n)%Z then Some (if neg then - v else v) else None
  | _ => None
  end.

Definition unsigned_decimal_literal (neg : bool) (s : jsstring) : float :=
  if bool_decide (s = str "Infinity") then
    (if neg then neg_infinity else infinity)
  else
    let '(ip, ni, r1) := span_digits 10 s 0 0 in
    let '(m, nf, r2) := match r1 with
                        | 46%N :: r => span_digits 10 r ip 0
                        | _ => (ip, 0%Z, r1)
                        end in
    if (ni + nf =? 0)%Z then nan
    else match r2 with
         | [] => decimal neg m (- nf)
         | c :: r3 =>
             if (c =? 101)%N || (c =? 69)%N then
               match exponent_part r3 with
               | Some x => decimal neg m (x - nf)
               | None => nan
               end
             else nan
         end.

Definition StringToNumber (s : jsstring) : float :=
  match trim s with
  | [] => 0%float
  | 48%N :: c :: r =>
      if (c =? 120)%N || (c =? 88)%N then integer_literal 16 r
      else if (c =? 111)%N || (c =? 79)%N then integer_literal 8 r
      else if (c =? 98)%N || (c =? 66)%N then integer_literal 2 r
      else unsigned_decimal_literal false (48%N :: c :: r)
  | 43%N :: r => unsigned_decimal_literal false r
  | 45%N :: r => unsigned_decimal_literal true r
  | t => unsigned_decimal_literal false t
  end.

Fixpoint digits_loop (fuel : nat) (z : Z) (acc : jsstring) : jsstring :=
  match fuel with
  | O => acc
  | S fuel' =>
      let acc' := Z.to_N (48 + z mod 10) :: acc in
      if (z / 10 =? 0)%Z then acc' else digits_loop fuel' (z / 10) acc'
  end.

(** The decimal digits of [0 <= z]. *)
Definition digits (z : Z) : jsstring :=
  digits_loop (S (Z.to_nat (Z.log2 z))) z [].

(** The least [j] from [j0] on with [den <= num * 10^j]. *)
Fixpoint first_scale (fuel : nat) (num den j : Z) : Z :=
  match fuel with
  | O => j
  | S fuel' =>
      if (den <=? num * 10 ^ j)%Z then j else first_scale fuel' num den (j + 1)
  end.

(** For [x = num / den > 0], the [n] with [10^(n-1) <= x < 10^n]. *)
Definition decimal_exponent (num den : Z) : Z :=
  if den <=? num then Z.of_nat (length (digits (num / den)))
  else 1 - first_scale 400 num den 1.

(** The [k]-digit decimal [s * 10^(n-k)] nearest to [x = num / den] among
    those that convert back to [x], if there is one, as [(s, n)]. *)
Definition shortest_at (x : float) (num den n k : Z) : option (Z * Z) :=
  let num' := (num * 10 ^ Z.max (k - n) 0)%Z in
  let den' := (den * 10 ^ Z.max (n - k) 0)%Z in
  let lo := (num' / den')%Z in
  let hi := (lo + 1)%Z in
  let back s := (decimal false s (n - k) =? x)%float in
  let up := if (hi =? 10 ^ k)%Z then (10 ^ (k - 1), n + 1)%Z else (hi, n) in
  let r := (num' - lo * den')%Z in
  let lo_nearer := (2 * r <? den') || ((2 * r =? den') && Z.even lo) in
  if (lo <? 10 ^ (k - 1))%Z then (if back hi then Some up else None)
  else if back lo && (lo_nearer || negb (back hi)) then Some (lo, n)
  else if back hi then Some up
  else None.

Fixpoint shortest_from (fuel : nat) (x : float) (num den n k : Z)
    : Z * Z * Z :=
  match fuel with
  | O => (0, n, k)%Z
  | S fuel' =>
      match shortest_at x num den n k with
      | Some (s, n') => (s, n', k)
      | None => shortest_from fuel' x num den n (k + 1)
      end
  end.

Definition zeros (n : Z) : jsstring := List.repeat 48%N (Z.to_nat n).

Definition exponent_text (n : Z) : jsstring :=
  101%N :: (if (0 <=? n - 1)%Z then 43%N else 45%N) :: digits (Z.abs (n - 1)).

(** The text of the positive number with digits [ds] (there are [k]) and
    decimal exponent [n]. *)
Definition layout (ds : jsstring) (k n : Z) : jsstring :=
  if (k <=? n) && (n <=? 21) then ds ++ zeros (n - k)
  else if (0 <? n) && (n <=? 21) then
    take (Z.to_nat n) ds ++ 46%N :: drop (Z.to_nat n) ds
  else if (-6 <? n) && (n <=? 0) then
    48%N :: 46%N :: zeros (- n) ++ ds
  else if (k =? 1)%Z then ds ++ exponent_text n
  else take 1 ds ++ 46%N :: drop 1 ds ++ exponent_text n.

Definition NumberToString (x : float) : jsstring :=
  match Prim2SF x with
  | S754_nan => str "NaN"
  | S754_zero _ => str "0"
  | S754_infinity s => if s then str "-Infinity" else str "Infinity"
  | S754_finite s m e =>
      let num := (Z.pos m * 2 ^ Z.max e 0)%Z in
      let den := (2 ^ Z.max (- e) 0)%Z in
      let n := decimal_exponent num den in
      let '(d, n', k) := shortest_from 17 (abs x) num den n 1 in
      (if s then [45%N] else []) ++ layout (digits d) k n'
  end.

#[export] Instance engine : Engine :=
  {| JS.toLowerCase := toLowerCase;
     JS.StringToNumber := StringToNumber;
     JS.NumberToString := NumberToString;
     JS.toLowerCase_empty := eq_refl |}.

End Reference.

(** ** Concrete profiles *)

Module Examples.

(** An array of string literals. *)
Definition labels (l : list string) : value :=
  VArr (List.map (fun s => VStr (str s)) l).

Definition with_budget (x : float) : profile := {[ "budget" := VNum x ]}.

(** The label K-dotless i-z-dotless i-l-a-y, by its code units. *)
Definition kizilay : jsstring := [75; 305; 122; 305; 108; 97; 121]%N.

(** The first worked example of the specification. *)
Definition kolej_viewer : profile :=
  <["budget" := VNum 2000]>
    (<["neighborhoods" := labels ["Kolej"]]>
       {[ "roommatePreferences" := labels ["tidy"] ]}).

Definition kolej_candidate : profile :=
  <["budget" := VNum 2000]>
    (<["neighborhoods" := VArr [VStr (str "Kolej"); VStr kizilay]]>
       {[ "roommatePreferences" := labels ["tidy"; "quiet"] ]}).

(** The same candidate under another name, with a photo and a house. *)
Definition kolej_candidate_renamed : profile :=
  <["name" := VStr (str "Deniz")]>
    (<["hasHouse" := VBool true]>
       (<["profilePhoto" := VStr (str "data:image/png;base64,AAAA")]>
          kolej_candidate)).

(** A budget kept as text, as a form field would store it. *)
Definition text_budget : profile :=
  <["budget" := VStr (str " 2000 ")]> kolej_candidate.

(** A budget that is not a number, one that is zero, and one too large
    for a finite number. *)
Definition word_budget : profile := {[ "budget" := VStr (str "cheap") ]}.
Definition zero_budget : profile := {[ "budget" := VStr (str "0") ]}.
Definition huge_budget : profile := {[ "budget" := VStr (str "1e999") ]}.

(** A viewer whose budget is the number [Infinity], and one whose budget
    is the smallest positive number, [5e-324]. *)
Definition unbounded_viewer : profile :=
  <["budget" := VNum infinity]>
    (<["neighborhoods" := labels ["Kolej"]]>
       {[ "roommatePreferences" := labels ["tidy"] ]}).

Definition tiny_budget : profile := with_budget Number_MIN_VALUE.

(** Candidates for [unbounded_viewer]: nothing filled in; a budget only;
    both lists matching the viewer's and no budget. *)
Definition blank_candidate : profile := {[ "name" := VStr (str "Ada") ]}.
Definition budget_candidate : profile :=
  <["name" := VStr (str "Bora")]> (with_budget 1).
Definition matching_candidate : profile :=
  <["name" := VStr (str "Cem")]>
    (<["neighborhoods" := labels [" KOLEJ "]]>
       {[ "roommatePreferences" := labels ["Tidy"] ]}).

(** Neighborhood lists whose only entries are blank. *)
Definition blank_lists : profile :=
  <["neighborhoods" := labels ["  "]]>
    {[ "roommatePreferences" := labels [""; " "] ]}.
Definition blank_then_kolej : profile :=
  {[ "neighborhoods" := labels [" "; "Kolej"] ]}.
Definition blank_entries : list value := [VStr (str "  "); VStr []].
Definition only_blank_entries : profile :=
  <["neighborhoods" := VArr blank_entries]> kolej_candidate.

End Examples.

(** ** The words of the specification *)

Section Notions.
Context {E : Engine}.

(** A budget that is missing or not a valid number: the field is absent
    or [null], or what it holds converts to [NaN]. *)
Definition unusable_budget (v : value) : Prop :=
  v = VUndefined \/ v = VNull \/ is_nan (ToNumber v) = true.

(** What the comparison of two labels looks at: the label as text,
    trimmed and lower-cased. *)
Definition normalize (v : value) : jsstring :=
  toLowerCase (trim (ToString v)).

(** An entry that is an empty or white-space-only string. *)
Definition blank_entry (v : value) : Prop :=
  exists s, v = VStr s /\ Forall (fun c => is_white_space c = true) s.

(** Lexicographic order of identifiers. *)
Inductive lex_lt : jsstring -> jsstring -> Prop :=
| lex_lt_nil y b : lex_lt [] (y :: b)
| lex_lt_head x y a b : (x < y)%N -> lex_lt (x :: a) (y :: b)
| lex_lt_tail x a b : lex_lt a b -> lex_lt (x :: a) (x :: b).

(** A user identifier that is not there. *)
Definition missing (v : value) : Prop :=
  v = VUndefined \/ v = VNull \/ v = VStr [].

(** A candidate as the ranker's [map] returns it: its own fields and the
    score. *)
Definition scored (myProfile p : profile) : profile :=
  <["matchScore" := VNum (calculateMatchScore myProfile p)]> p.

(** The score the ranker's comparator reads from a ranked entry. *)
Definition matchScore (a : profile) : float :=
  ToNumber (prop a "matchScore").
End Notions.

(** The last step of [calculateMatchScore], on the rounded sum. *)
Definition clamp (r : float) : float := Math_max 0 (Math_min 100 r).

(** A number that is neither [NaN], nor infinite, nor zero. *)
Definition finite_nonzero (x : float) : bool :=
  is_finite x && negb (is_zero x).

(** The budgets that pass the guard of the budget block and whose half is
    not a finite number other than zero: the infinities and
    [Number.MIN_VALUE] with either sign. *)
Definition degenerate_budget (x : float) : bool :=
  is_infinity x || (abs x =? Number_MIN_VALUE)%float.

(** A ranked entry whose score is an integer from 0 to 100. *)
Definition score_ok (a : profile) : Prop :=
  exists k : Z, (0 <= k <= 100)%Z /\ prop a "matchScore" = VNum (of_Z k).

(** ** Classes of binary64 values, for the proofs *)

(** Not [NaN]. *)
Definition sf_number (f : spec_float) : bool :=
  match f with S754_nan => false | _ => true end.

(** Neither [NaN] nor negative. *)
Definition sf_nonneg (f : spec_float) : bool :=
  match f with
  | S754_zero false | S754_infinity false | S754_finite false _ _ => true
  | _ => false
  end.

(** Zero or a positive finite number. *)
Definition sf_finite_nonneg (f : spec_float) : bool :=
  match f with
  | S754_zero false | S754_finite false _ _ => true
  | _ => false
  end.

(** Not [NaN], and of sign [s]. *)
Definition sf_signed (s : bool) (f : spec_float) : bool :=
  match f with
  | S754_zero s' | S754_infinity s' | S754_finite s' _ _ => Bool.eqb s' s
  | S754_nan => false
  end.

(** The 53-bit mantissa of the positive integer [p < 2^53]. *)
Definition int_mantissa (p : positive) : positive :=
  match (Z.pos (digits2_pos p) - 53)%Z with
  | Z.neg q => Pos.iter xO p q
  | _ => p
  end.

(** The integer part of a positive finite number, 0 for any other. *)
Definition integer_part (x : float) : Z :=
  match Prim2SF x with
  | S754_finite false m e => Z.shiftl (Z.pos m) e
  | _ => 0%Z
  end.

(** The integers from 0 to 100. *)
Definition score_values : list Z := List.map Z.of_nat (seq 0 101).


(** ** The other pages

    The handlers of the pages are embedded as functions of what they read
    (the signed-in user, the component's state, the documents a query
    returned) to what they do next: the state they set, or the call of the
    store or of the sign-in service they make. What those services answer
    is not part of the development. [auth.currentUser] is [None] for
    [null] and the user's [uid] otherwise. *)

(** *** More of the language *)

(** [a || b]. *)
Definition or_else (a b : value) : value := if ToBoolean a then a else b.

(** [v === s] for a string [s]: the string [s] itself and nothing else. *)
Definition strict_eq_str (v : value) (s : jsstring) : bool :=
  match v with
  | VStr t => jsstring_eqb t s
  | _ => false
  end.

(** [Array.prototype.includes] for a string looked up in an array of any
    values. *)
Definition Array_includes (l : list value) (s : jsstring) : bool :=
  existsb (fun v => strict_eq_str v s) l.

(** [v.trim()]: defined on a string only; on any other value the call
    raises a [TypeError], which is [None]. *)
Definition String_trim (v : value) : option jsstring :=
  match v with
  | VStr s => Some (trim s)
  | _ => None
  end.

(** [String.prototype.endsWith]. *)
Definition endsWith (s search : jsstring) : bool :=
  (length search <=? length s)%nat
  && jsstring_eqb (drop (length s - length search) s) search.

(** [s.split(c)] for a separator [c] of one code unit: the pieces between
    the separators, the empty ones too. *)
Fixpoint split_on (c : N) (s : jsstring) : list jsstring :=
  match s with
  | [] => [[]]
  | x :: s' =>
      if (x =? c)%N then [] :: split_on c s'
      else match split_on c s' with
           | p :: ps => (x :: p) :: ps
           | [] => [[x]]
           end
  end.

(** The equality of [Set] and [Map] keys, [SameValueZero]: numbers by
    value with [NaN] equal to itself, the other primitives by value. An
    array or an object is the same as itself only; the values compared here
    are read from different documents, so two of them are never the same
    array or object. *)
Definition same_value_zero (a b : value) : bool :=
  match a, b with
  | VUndefined, VUndefined => true
  | VNull, VNull => true
  | VBool x, VBool y => Bool.eqb x y
  | VNum x, VNum y => (x =? y)%float || (is_nan x && is_nan y)
  | VStr s, VStr t => jsstring_eqb s t
  | _, _ => false
  end.

(** A [Set], as the list of its elements in the order they were added. *)
Definition Set_has (s : list value) (v : value) : bool :=
  existsb (same_value_zero v) s.

Definition Set_add (s : list value) (v : value) : list value :=
  if Set_has s v then s else s ++ [v].

(** A string that neither starts nor ends with white space. *)
Definition tight (s : jsstring) : Prop :=
  (forall c r, s = c :: r -> is_white_space c = false) /\
  (forall r c, s = r ++ [c] -> is_white_space c = false).

(** [tight], as a test. *)
Definition tightb (s : jsstring) : bool :=
  match s with
  | [] => true
  | c :: r => negb (is_white_space c) && negb (is_white_space (List.last r c))
  end.

(** A list of tags as the profile form keeps it: strings, none of them
    empty or with white space at an end, no string twice. *)
Definition clean_tags (l : list value) : Prop :=
  NoDup l /\
  Forall (fun v => exists s, v = VStr s /\ s <> [] /\ tight s) l.

(** In a set built by [add], a later element is never the same value as
    an earlier one. *)
Fixpoint set_like (s : list value) : Prop :=
  match s with
  | [] => True
  | x :: s' => (forall y, In y s' -> same_value_zero y x = false) /\ set_like s'
  end.

(** *** The document store *)

(** A query result: the documents, each with its identifier, in the order
    the store returns them. *)
Definition snapshot := list (jsstring * profile).

(** [getDocs(query(collection, where(field, "==", uid)))] for a string
    [uid]: the documents whose field is that string. *)
Definition where_eq (field : string) (uid : jsstring) (documents : list profile)
    : list profile :=
  List.filter (fun data => strict_eq_str (prop data field) uid) documents.

(** [getDoc(doc(db, collection, uid))] read off a snapshot of the
    collection: the data of the document [uid], if there is one. *)
Definition getDoc (documents : snapshot) (uid : jsstring) : option profile :=
  snd <$> List.find (fun d => jsstring_eqb (fst d) uid) documents.

(** [setDoc(ref, data, { merge: true })] on a document whose fields hold no
    nested maps: the fields of [data] replace those of the same name, the
    other fields stay ([old] is empty for a document that is not there). *)
Definition setDoc_merge (data old : profile) : profile := data ∪ old.

(** The object [{ id: docId, ...data }]: the fields of [data], and [id]
    unless [data] has a field of that name, which the spread writes over
    it. *)
Definition with_id (docId : jsstring) (data : profile) : profile :=
  data ∪ {[ "id" := VStr docId ]}.

(** *** [src/pages/AuthPage.jsx] *)

Module AuthPage.

Definition allowedEndings : list jsstring :=
  List.map str
    [".edu"; ".edu.pl"; ".edu.tr"; ".ac.uk"; ".ac.jp"; ".ac.kr"; ".edu.au";
     ".uni.it"].

(** What [handleSignup] does after its checks: set a message and return,
    or call [createUserWithEmailAndPassword(auth, email, password)]. *)
Inductive signup_step : Type :=
| SignupMessage (msg : string)
| SignupCreateUser (email password : jsstring).

Section WithEngine.
Context {E : Engine}.

(** [isUniversityEmail(email)]. *)
Definition isUniversityEmail (email : jsstring) : bool :=
  let trimmed := toLowerCase (trim email) in
  existsb (fun ending => endsWith trimmed ending) allowedEndings.

(** [handleSignup], up to the call of the sign-in service. *)
Definition handleSignup (signUpEmail signUpPassword : jsstring)
    : signup_step :=
  if negb (ToBoolean (VStr (trim signUpEmail))) then
    SignupMessage "Please enter your university email."
  else if negb (isUniversityEmail signUpEmail) then
    SignupMessage
      "This platform is only for university students. Please use your university email (for example: name@school.edu)."
  else if negb (ToBoolean (VStr (trim signUpPassword))) then
    SignupMessage "Please enter a password."
  else if (length signUpPassword <? 6)%nat then
    SignupMessage "Password must be at least 6 characters long."
  else SignupCreateUser signUpEmail signUpPassword.
End WithEngine.

End AuthPage.

(** *** [src/pages/Chat.jsx]: opening a chat and sending a message *)

Module ChatPage.

(** What [setupChat] does first: go to another page, show a message and
    stop, or [setChatId(id)] and go on to load the room [id]. *)
Inductive setup_step : Type :=
| SetupNavigate (path : string)
| SetupMessage (msg : string)
| SetupChatId (id : value).

Section WithEngine.
Context {E : Engine}.

(** [setupChat], up to [setChatId(id)]; [otherUid] is the parameter of
    the route. *)
Definition setupChat (currentUser : option jsstring) (otherUid : value)
    : setup_step :=
  match currentUser with
  | None => SetupNavigate "/"
  | Some myUid =>
      if negb (ToBoolean otherUid) || strict_eq_str otherUid myUid then
        SetupMessage "Invalid chat partner."
      else
        SetupChatId (getChatId (VStr myUid) otherUid)
  end.
End WithEngine.

(** [handleSend]: nothing, or [addDoc] of a message to the messages of the
    room [chatId]. [createdAt] is what [serverTimestamp()] stands for. *)
Definition handleSend (chatId : value) (currentUser : option jsstring)
    (otherUid : value) (newMessage : jsstring) (createdAt : value)
    : option (value * profile) :=
  match currentUser with
  | None => None
  | Some myUid =>
      if negb (ToBoolean chatId) || negb (ToBoolean otherUid) then None
      else
        let text := trim newMessage in
        if negb (ToBoolean (VStr text)) then None
        else
          Some (chatId,
                <["text" := VStr text]>
                  (<["fromUid" := VStr myUid]>
                     (<["toUid" := otherUid]>
                        {[ "createdAt" := createdAt ]})))
  end.

(** [isMine], as the page computes it for a message bubble. *)
Definition isMine (message : profile) (currentUser : option jsstring) : bool :=
  match currentUser with
  | Some myUid => strict_eq_str (prop message "fromUid") myUid
  | None =>
      match prop message "fromUid" with
      | VUndefined => true
      | _ => false
      end
  end.

End ChatPage.

(** *** [src/pages/CreateProfile.jsx]: the profile form *)

Module CreateProfile.

(** The state of the form. The text fields and the photo hold what the
    inputs put there, a string, or what [loadProfileIfExists] read from the
    stored document, any value. *)
Record form : Type := {
  name : value;
  age : value;
  gender : value;
  hasHouse : bool;
  bio : value;
  profilePhoto : value;
  neighborhoods : list value;
  roommatePreferences : list value;
  neighborhoodInput : jsstring;
  roommatePrefInput : jsstring;
  homePhotos : list value
}.

(** The state the component starts with. *)
Definition initial : form :=
  {| name := VStr []; age := VStr []; gender := VStr []; hasHouse := false;
     bio := VStr []; profilePhoto := VStr [];
     neighborhoods := []; roommatePreferences := [];
     neighborhoodInput := []; roommatePrefInput := [];
     homePhotos := [] |}.

Definition setNeighborhoods (l : list value) (st : form) : form :=
  {| name := name st; age := age st; gender := gender st;
     hasHouse := hasHouse st; bio := bio st; profilePhoto := profilePhoto st;
     neighborhoods := l; roommatePreferences := roommatePreferences st;
     neighborhoodInput := neighborhoodInput st;
     roommatePrefInput := roommatePrefInput st;
     homePhotos := homePhotos st |}.

Definition setRoommatePreferences (l : list value) (st : form) : form :=
  {| name := name st; age := age st; gender := gender st;
     hasHouse := hasHouse st; bio := bio st; profilePhoto := profilePhoto st;
     neighborhoods := neighborhoods st; roommatePreferences := l;
     neighborhoodInput := neighborhoodInput st;
     roommatePrefInput := roommatePrefInput st;
     homePhotos := homePhotos st |}.

Definition setNeighborhoodInput (s : jsstring) (st : form) : form :=
  {| name := name st; age := age st; gender := gender st;
     hasHouse := hasHouse st; bio := bio st; profilePhoto := profilePhoto st;
     neighborhoods := neighborhoods st;
     roommatePreferences := roommatePreferences st;
     neighborhoodInput := s;
     roommatePrefInput := roommatePrefInput st;
     homePhotos := homePhotos st |}.

Definition setRoommatePrefInput (s : jsstring) (st : form) : form :=
  {| name := name st; age := age st; gender := gender st;
     hasHouse := hasHouse st; bio := bio st; profilePhoto := profilePhoto st;
     neighborhoods := neighborhoods st;
     roommatePreferences := roommatePreferences st;
     neighborhoodInput := neighborhoodInput st;
     roommatePrefInput := s;
     homePhotos := homePhotos st |}.


(** [addNeighborhoodTag(valueFromChip)]: the "Add" button calls it with no
    argument, [None], a preset chip with its label. *)
Definition addNeighborhoodTag (valueFromChip : option jsstring) (st : form)
    : form :=
  let raw := default (neighborhoodInput st) valueFromChip in
  let trimmed := trim raw in
  if negb (ToBoolean (VStr trimmed)) then st
  else
    let st :=
      if negb (Array_includes (neighborhoods st) trimmed)
      then setNeighborhoods (neighborhoods st ++ [VStr trimmed]) st
      else st in
    setNeighborhoodInput [] st.

(** [removeNeighborhoodTag(tag)], for a tag that is a string. *)
Definition removeNeighborhoodTag (tag : jsstring) (st : form) : form :=
  setNeighborhoods
    (List.filter (fun n => negb (strict_eq_str n tag)) (neighborhoods st)) st.

(** [addRoommatePrefTag(valueFromChip)]. *)
Definition addRoommatePrefTag (valueFromChip : option jsstring) (st : form)
    : form :=
  let raw := default (roommatePrefInput st) valueFromChip in
  let trimmed := trim raw in
  if negb (ToBoolean (VStr trimmed)) then st
  else
    let st :=
      if negb (Array_includes (roommatePreferences st) trimmed)
      then setRoommatePreferences (roommatePreferences st ++ [VStr trimmed]) st
      else st in
    setRoommatePrefInput [] st.

(** [removeRoommatePrefTag(tag)], for a tag that is a string. *)
Definition removeRoommatePrefTag (tag : jsstring) (st : form) : form :=
  setRoommatePreferences
    (List.filter (fun p => negb (strict_eq_str p tag))
       (roommatePreferences st)) st.

(** What [handleSaveProfile] does: set a message; stop on a [TypeError]
    raised outside its [try]; or call
    [setDoc(doc(db, "users", uid), data, { merge: true })]. *)
Inductive save_step : Type :=
| SaveMessage (msg : string)
| SaveTypeError
| SaveSetDoc (uid : jsstring) (data : profile).

(** [handleSaveProfile], up to the call of the store. The [name.trim()] of
    the check is outside the [try]; the [trim] calls that build the
    document are inside it, and what they raise sets the last message. *)
Definition handleSaveProfile (currentUser : option jsstring) (st : form)
    : save_step :=
  match currentUser with
  | None => SaveMessage "You must be logged in."
  | Some uid =>
      match String_trim (name st) with
      | None => SaveTypeError
      | Some checked =>
          if negb (ToBoolean (VStr checked)) then
            SaveMessage "Please enter your name."
          else
            let finalHomePhotos :=
              if hasHouse st then homePhotos st else [] in
            match String_trim (name st), String_trim (age st),
                  String_trim (bio st) with
            | Some n, Some a, Some b =>
                SaveSetDoc uid
                  (<["name" := VStr n]>
                     (<["age" := VStr a]>
                        (<["gender" := gender st]>
                           (<["hasHouse" := VBool (hasHouse st)]>
                              (<["bio" := VStr b]>
                                 (<["profilePhoto" :=
                                      or_else (profilePhoto st) (VStr [])]>
                                    (<["homePhotos" := VArr finalHomePhotos]>
                                       (<["neighborhoods" :=
                                            VArr (neighborhoods st)]>
                                          {[ "roommatePreferences" :=
                                               VArr (roommatePreferences st)
                                          ]}))))))))
            | _, _, _ =>
                SaveMessage "Could not save your profile. Please try again."
            end
      end
  end.

(** What the user does to the two tag lists. *)
Inductive tag_action : Type :=
| TypeNeighborhood (text : jsstring)
| AddNeighborhood (valueFromChip : option jsstring)
| RemoveNeighborhood (tag : jsstring)
| TypeRoommatePref (text : jsstring)
| AddRoommatePref (valueFromChip : option jsstring)
| RemoveRoommatePref (tag : jsstring).

Definition tag_step (st : form) (a : tag_action) : form :=
  match a with
  | TypeNeighborhood text => setNeighborhoodInput text st
  | AddNeighborhood chip => addNeighborhoodTag chip st
  | RemoveNeighborhood tag => removeNeighborhoodTag tag st
  | TypeRoommatePref text => setRoommatePrefInput text st
  | AddRoommatePref chip => addRoommatePrefTag chip st
  | RemoveRoommatePref tag => removeRoommatePrefTag tag st
  end.

End CreateProfile.

(** *** [Matches.jsx] and [src/pages/Messages.jsx]: the mutual likes *)

Module Matches.

(** The set the page fills from a query result: for each document, in
    order, [if (data[field]) set.add(data[field])]. *)
Definition likedSet (field : string) (snap : list profile) : list value :=
  fold_left
    (fun set data =>
       if ToBoolean (prop data field) then Set_add set (prop data field)
       else set)
    snap [].

(** [mutualIds], as [loadMatches] computes it from the [likes]
    collection. *)
Definition mutualIds (likes : list profile) (myUid : jsstring) : list value :=
  let iLikedSet := likedSet "toUid" (where_eq "fromUid" myUid likes) in
  let likedMeSet := likedSet "fromUid" (where_eq "toUid" myUid likes) in
  List.filter (fun uid => Set_has likedMeSet uid) iLikedSet.

End Matches.

(** *** [src/pages/SwipeMatch.jsx]: the page around the ranker *)

Module SwipePage.

(** What [loadData] does: go to another page, or show the ranked profiles
    under a message, which is empty when there is none. *)
Inductive load_step : Type :=
| LoadNavigate (path : string)
| LoadShow (errorMsg : string) (profiles : list profile).

(** The part of the component's state the two buttons work on. *)
Record swipe : Type := {
  profiles : list profile;
  currentIndex : nat;
  lastAction : jsstring
}.

Definition noMoreProfiles (st : swipe) : bool :=
  (length (profiles st) <=? currentIndex st)%nat.

Definition currentProfile (st : swipe) : option profile :=
  if negb (noMoreProfiles st) then profiles st !! currentIndex st else None.

Section WithEngine.
Context {E : Engine}.

(** The array [others] that [loadData] fills from the [users] collection. *)
Definition others (usersSnap : snapshot) (uid : jsstring) : list profile :=
  List.map (fun d => with_id (fst d) (snd d))
    (List.filter (fun d => negb (jsstring_eqb (fst d) uid)) usersSnap).

(** [loadData]: both reads are taken from one snapshot of [users]. *)
Definition loadData (currentUser : option jsstring) (usersSnap : snapshot)
    : load_step :=
  match currentUser with
  | None => LoadNavigate "/"
  | Some uid =>
      match getDoc usersSnap uid with
      | None => LoadNavigate "/create-profile"
      | Some myData =>
          let others := others usersSnap uid in
          let errorMsg :=
            if (length others =? 0)%nat then
    "No other verified student profiles yet. Invite your friends to sign up!"
            else "" in
          LoadShow errorMsg (rankProfilesWithMatchScore myData others)
      end
  end.

(** [handleSkip], run on the state the page shows. *)
Definition handleSkip (st : swipe) : swipe :=
  match currentProfile st with
  | None => st
  | Some p =>
      {| profiles := profiles st;
         currentIndex := currentIndex st + 1;
         lastAction :=
           str "You skipped "
           ++ ToString (or_else (prop p "name") (VStr (str "this profile")))
           ++ str "." |}
  end.

(** [handleConnect], first half: nothing, or [addDoc] of this document to
    [likes]. [now] is [Date.now()]. *)
Definition handleConnect_like (currentUser : option jsstring) (st : swipe)
    (now : float) : option profile :=
  match currentProfile st, currentUser with
  | Some p, Some uid =>
      Some (<["fromUid" := VStr uid]>
              (<["toUid" := prop p "id"]> {[ "createdAt" := VNum now ]}))
  | _, _ => None
  end.

(** [handleConnect], second half, once the store has answered: [saved]
    tells whether [addDoc] succeeded, [shown] is the profile the handler
    was started on, and [st] the state by then. *)
Definition handleConnect_done (saved : bool) (shown : profile) (st : swipe)
    : swipe :=
  if saved then
    {| profiles := profiles st;
       currentIndex := currentIndex st + 1;
       lastAction :=
         str "You liked "
         ++ ToString (or_else (prop shown "name") (VStr (str "this student")))
         ++ str ". We'll use this for matching later." |}
  else
    {| profiles := profiles st;
       currentIndex := currentIndex st;
       lastAction := str "Could not save your like. Please try again." |}.

(** The entry the page holds for a stored document of another user. *)
Definition shown_entry (myData : profile) (d : jsstring * profile) : profile :=
  <["matchScore" := VNum (calculateMatchScore myData (snd d))]>
    (with_id (fst d) (snd d)).

(** A click on one of the two buttons whose handler finishes before the
    next click: for "Connect", whether the store saved the like, and the
    time. *)
Inductive click : Type :=
| Skip
| Connect (saved : bool) (now : float).

(** The page after a click, and the documents added to [likes] so far. *)
Definition click_step (currentUser : option jsstring)
    (s : swipe * list profile) (c : click) : swipe * list profile :=
  match c with
  | Skip => (handleSkip (fst s), snd s)
  | Connect saved now =>
      match handleConnect_like currentUser (fst s) now,
            currentProfile (fst s) with
      | Some like, Some shown =>
          (handleConnect_done saved shown (fst s),
           if saved then snd s ++ [like] else snd s)
      | _, _ => s
      end
  end.
End WithEngine.

End SwipePage.

(** *** [ProfilePreview.jsx]: the home photos it shows *)

Module ProfilePreview.
Section WithEngine.
Context {E : Engine}.

(** [homePhotos], as the page normalizes them: [loaded] is the state
    [profile], the loaded document, [None] for [null]. *)
Definition homePhotos (loaded : option profile) : list jsstring :=
  match loaded with
  | None => []
  | Some data =>
      let stored := prop data "homePhotos" in
      if ToBoolean stored then
        if Array_isArray stored then
          List.filter (fun s => (0 <? length s)%nat)
            (List.map (fun s => trim (ToString s)) (elements stored))
        else
          match stored with
          | VStr s =>
              List.filter (fun s => (0 <? length s)%nat)
                (List.map trim (split_on 44 s))
          | _ => []
          end
      else []
  end.
End WithEngine.
End ProfilePreview.

(** *** Concrete pages *)

Module Scenarios.

Definition ada : jsstring := str "uidAda".
Definition bora : jsstring := str "uidBora".
Definition cem : jsstring := str "uidCem".
Definition deniz : jsstring := str "uidDeniz".

(** The profile form as a user has filled it in. *)
Definition filled_form : CreateProfile.form :=
  {| CreateProfile.name := VStr (str " Ada ");
     CreateProfile.age := VStr (str "21");
     CreateProfile.gender := VStr (str "Female");
     CreateProfile.hasHouse := false;
     CreateProfile.bio := VStr (str "Second year, early bird. ");
     CreateProfile.profilePhoto := VStr [];
     CreateProfile.neighborhoods := [VStr (str "Kolej")];
     CreateProfile.roommatePreferences := [VStr (str "tidy")];
     CreateProfile.neighborhoodInput := str "Tunal";
     CreateProfile.roommatePrefInput := [];
     CreateProfile.homePhotos := [VStr (str "data:image/png;base64,AAAA")] |}.

(** What saving [filled_form] hands to the store. *)
Definition ada_document : profile :=
  <["name" := VStr (str "Ada")]>
    (<["age" := VStr (str "21")]>
       (<["gender" := VStr (str "Female")]>
          (<["hasHouse" := VBool false]>
             (<["bio" := VStr (str "Second year, early bird.")]>
                (<["profilePhoto" := VStr []]>
                   (<["homePhotos" := VArr []]>
                      (<["neighborhoods" := VArr [VStr (str "Kolej")]]>
                         {[ "roommatePreferences" :=
                              VArr [VStr (str "tidy")] ]}))))))).

(** A document stored before, with photos and a field of another page. *)
Definition older_document : profile :=
  <["homePhotos" := VArr [VStr (str "data:image/png;base64,BBBB")]]>
    {[ "createdBy" := VStr (str "import") ]}.

(** Typing and adding tags, one of them twice, and removing one. *)
Definition tag_session : list CreateProfile.tag_action :=
  [CreateProfile.TypeNeighborhood (str "  Kolej ");
   CreateProfile.AddNeighborhood None;
   CreateProfile.AddNeighborhood (Some (str "Kolej"));
   CreateProfile.AddNeighborhood (Some (str "Tunal"));
   CreateProfile.TypeRoommatePref (str "   ");
   CreateProfile.AddRoommatePref None;
   CreateProfile.AddRoommatePref (Some (str "tidy"));
   CreateProfile.RemoveNeighborhood (str "Kolej")].

(** The [users] collection: the viewer and two others. *)
Definition users : snapshot :=
  [(bora, Examples.budget_candidate);
   (ada, Examples.kolej_viewer);
   (cem, Examples.matching_candidate)].

(** The swipe page of [ada] on [bora]'s card, and of [bora] on [ada]'s. *)
Definition ada_page : SwipePage.swipe :=
  {| SwipePage.profiles :=
       [with_id cem Examples.matching_candidate;
        with_id bora Examples.budget_candidate];
     SwipePage.currentIndex := 1;
     SwipePage.lastAction := [] |}.

Definition bora_page : SwipePage.swipe :=
  {| SwipePage.profiles := [with_id ada Examples.kolej_viewer];
     SwipePage.currentIndex := 0;
     SwipePage.lastAction := [] |}.

Definition like (fromUid toUid : jsstring) (createdAt : float) : profile :=
  <["fromUid" := VStr fromUid]>
    (<["toUid" := VStr toUid]> {[ "createdAt" := VNum createdAt ]}).

(** The [likes] collection: [ada] and [bora] like each other, [ada] twice;
    [ada] likes [cem], who likes [deniz]. *)
Definition likes : list profile :=
  [like ada cem 1000; like bora ada 2000; like ada bora 3000;
   like cem deniz 4000; like ada bora 5000].

(** Three clicks on [ada]'s page from its first card: a like that is
    saved, a skip, and a click past the end. *)
Definition clicks : list SwipePage.click :=
  [SwipePage.Connect true 1000; SwipePage.Skip; SwipePage.Connect true 2000].

Definition first_card : SwipePage.swipe :=
  {| SwipePage.profiles := SwipePage.profiles ada_page;
     SwipePage.currentIndex := 0;
     SwipePage.lastAction := [] |}.

(** Two photo addresses. *)
Definition photos : list jsstring :=
  [str "https://example.org/a.jpg"; str "https://example.org/b.jpg"].

End Scenarios.


(** * Properties *)

(** A closed statement settled by running the functions. *)
Ltac evaluate := vm_compute; reflexivity.

(** ** Binary64 numbers *)

Section Binary64.
#[local] Open Scope Z_scope.

Lemma digits2_pos_iter_xO (p d : positive) :
  Z.pos (digits2_pos (Pos.iter xO p d)) = Z.pos (digits2_pos p) + Z.pos d.
Proof.
  induction d as [|d IH] using Pos.peano_ind.
  - cbn. lia.
  - rewrite Pos.iter_succ. cbn [digits2_pos]. lia.
Qed.

Lemma pos_iter_xO_Z (p q : positive) :
  Z.pos (Pos.iter xO p q) = Z.pos p * 2 ^ Z.pos q.
Proof.
  induction q as [|q IH] using Pos.peano_ind.
  - cbn. lia.
  - rewrite Pos.iter_succ, Pos2Z.inj_succ, Z.pow_succ_r by lia.
    change (Z.pos (Pos.iter xO p q)~0) with (2 * Z.pos (Pos.iter xO p q)).
    rewrite IH. lia.
Qed.

Lemma digits2_pos_size (p : positive) : digits2_pos p = Pos.size p.
Proof. induction p; cbn; congruence. Qed.

(** [p] has exactly [digits2_pos p] bits. *)
Lemma digits2_pos_bounds (p : positive) :
  2 ^ (Z.pos (digits2_pos p) - 1) <= Z.pos p < 2 ^ Z.pos (digits2_pos p).
Proof.
  rewrite digits2_pos_size.
  pose proof (Pos.size_le p) as Hle. pose proof (Pos.size_gt p) as Hgt.
  apply Pos2Z.pos_le_pos in Hle. apply Pos2Z.pos_lt_pos in Hgt.
  rewrite Pos2Z.inj_pow in Hle, Hgt.
  split; [|exact Hgt].
  replace (Z.pos (Pos.size p)) with (Z.succ (Z.pos (Pos.size p) - 1)) in Hle
    by lia.
  rewrite Z.pow_succ_r in Hle by lia.
  change (Z.pos p~0) with (2 * Z.pos p) in Hle. lia.
Qed.

Lemma digits2_pos_le_53 (p : positive) :
  Z.pos p < 2 ^ 53 -> Z.pos (digits2_pos p) <= 53.
Proof.
  intros Hp. pose proof (digits2_pos_bounds p) as [Hlo _].
  destruct (Z.le_gt_cases (Z.pos (digits2_pos p)) 53) as [H | H]; [exact H|].
  exfalso.
  assert (2 ^ 53 <= 2 ^ (Z.pos (digits2_pos p) - 1))
    by (apply Z.pow_le_mono_r; lia).
  lia.
Qed.

(** A mantissa of exactly 53 bits with an exponent in range needs no
    rounding and is a number. *)
Lemma binary_round_aux_canonical (s : bool) (m : positive) (e : Z) :
  Z.pos (digits2_pos m) = 53 -> -1074 <= e <= 971 ->
  binary_round_aux prec emax s (Z.pos m) e loc_Exact = S754_finite s m e.
Proof.
  intros Hd He. unfold binary_round_aux.
  assert (Hs : forall l, shr_fexp prec emax (Z.pos m) e l
                 = (shr_record_of_loc (Z.pos m) l, e)).
  { intros l. unfold shr_fexp, Zdigits2. rewrite Hd.
    replace (fexp prec emax (53 + e) - e) with 0; [reflexivity|].
    unfold fexp, SpecFloat.emin, prec, emax. lia. }
  rewrite Hs.
  cbn [shr_record_of_loc shr_m loc_of_shr_record round_nearest_even].
  rewrite Hs. cbn [shr_record_of_loc shr_m].
  replace (e <=? emax - prec) with true; [reflexivity|].
  symmetry. apply Z.leb_le. unfold emax, prec. lia.
Qed.

Lemma valid_binary_canonical (s : bool) (m : positive) (e : Z) :
  Z.pos (digits2_pos m) = 53 -> -1074 <= e <= 971 ->
  valid_binary (S754_finite s m e) = true.
Proof.
  intros Hd He. cbn. unfold bounded, canonical_mantissa. rewrite Hd.
  apply andb_true_intro. split.
  - apply Z.eqb_eq. unfold fexp, SpecFloat.emin, prec, emax. lia.
  - apply Z.leb_le. unfold emax, prec. lia.
Qed.

Lemma valid_mantissa_bound (s : bool) (m : positive) (e : Z) :
  valid_binary (S754_finite s m e) = true -> Z.pos m < 2 ^ 53.
Proof.
  cbn. unfold bounded, canonical_mantissa. intros H.
  apply andb_prop in H as [H _]. apply Z.eqb_eq in H.
  pose proof (digits2_pos_bounds m) as [_ Hhi].
  assert (Hd : Z.pos (digits2_pos m) <= 53)
    by (unfold fexp, SpecFloat.emin, prec, emax in H; lia).
  assert (2 ^ Z.pos (digits2_pos m) <= 2 ^ 53)
    by (apply Z.pow_le_mono_r; lia).
  lia.
Qed.

(** An integer of magnitude [p < 2^53] is exact: its mantissa is [p] with
    the leading bit moved to position 53. *)
Lemma binary_round_integer (s : bool) (p : positive) :
  Z.pos p < 2 ^ 53 ->
  binary_round prec emax s p 0 =
    S754_finite s (int_mantissa p) (Z.pos (digits2_pos p) - 53) /\
  valid_binary
    (S754_finite s (int_mantissa p) (Z.pos (digits2_pos p) - 53)) = true.
Proof.
  intros Hp. pose proof (digits2_pos_le_53 p Hp) as Hsz.
  unfold binary_round, shl_align, int_mantissa.
  set (d := Z.pos (digits2_pos p)) in *.
  replace (fexp prec emax (d + 0) - 0) with (d - 53)
    by (unfold fexp, SpecFloat.emin, prec, emax; lia).
  replace (fexp prec emax (d + 0)) with (d - 53)
    by (unfold fexp, SpecFloat.emin, prec, emax; lia).
  assert (Hd0 : 0 < d) by (unfold d; lia).
  destruct (d - 53) as [|q|q] eqn:Hq; try lia.
  - split.
    + apply binary_round_aux_canonical; unfold d in *; lia.
    + apply valid_binary_canonical; unfold d in *; lia.
  - assert (Hdq : Z.pos (digits2_pos (Pos.iter xO p q)) = 53).
    { rewrite digits2_pos_iter_xO. fold d. lia. }
    split.
    + apply binary_round_aux_canonical; [exact Hdq | lia].
    + apply valid_binary_canonical; [exact Hdq | lia].
Qed.

Lemma Prim2SF_of_Z_pos (p : positive) :
  Z.pos p < 2 ^ 53 ->
  Prim2SF (of_Z (Z.pos p)) =
    S754_finite false (int_mantissa p) (Z.pos (digits2_pos p) - 53).
Proof.
  intros Hp. destruct (binary_round_integer false p Hp) as [Hr Hv].
  unfold of_Z. cbn [binary_normalize]. rewrite Hr. now apply Prim2SF_SF2Prim.
Qed.

Lemma Prim2SF_of_Z_neg (p : positive) :
  Z.pos p < 2 ^ 53 ->
  Prim2SF (of_Z (Z.neg p)) =
    S754_finite true (int_mantissa p) (Z.pos (digits2_pos p) - 53).
Proof.
  intros Hp. destruct (binary_round_integer true p Hp) as [Hr Hv].
  unfold of_Z. cbn [binary_normalize]. rewrite Hr. now apply Prim2SF_SF2Prim.
Qed.

(** The number of an array length is zero or positive and finite. *)
Lemma Prim2SF_of_nat (n : nat) :
  Z.of_nat n < 2 ^ 53 ->
  Prim2SF (of_nat n) = S754_zero false \/
  exists m e, Prim2SF (of_nat n) = S754_finite false m e.
Proof.
  intros Hn. unfold of_nat. destruct (Z.of_nat n) as [|p|p] eqn:Hp; try lia.
  - left. reflexivity.
  - right. rewrite Prim2SF_of_Z_pos by lia. eauto.
Qed.

Lemma div_eucl_shiftl (m : positive) :
  Z.div_eucl (Z.shiftl (Z.pos m) 53) (Z.pos m) = (2 ^ 53, 0).
Proof.
  rewrite Z.shiftl_mul_pow2 by lia.
  pose proof (Z.div_eucl_eq (Z.pos m * 2 ^ 53) (Z.pos m) ltac:(lia)) as Heq.
  pose proof (Z.mod_pos_bound (Z.pos m * 2 ^ 53) (Z.pos m) ltac:(lia)) as Hb.
  unfold Z.modulo in Hb.
  destruct (Z.div_eucl (Z.pos m * 2 ^ 53) (Z.pos m)) as [q r].
  assert (q = 2 ^ 53) by nia. subst q. f_equal. lia.
Qed.

(** A finite number divided by itself is [1]. *)
Lemma SF64div_self (m : positive) (e : Z) :
  SF64div (S754_finite false m e) (S754_finite false m e) = Prim2SF 1.
Proof.
  unfold SF64div, SFdiv, SFdiv_core_binary.
  replace (Zdigits2 (Z.pos m) + e - (Zdigits2 (Z.pos m) + e)) with 0 by lia.
  rewrite Z.sub_diag.
  change (Z.min (fexp prec emax 0) 0) with (-53).
  change (0 - -53) with 53.
  cbv iota beta. rewrite div_eucl_shiftl.
  replace (new_location (Z.pos m) 0) with loc_Exact.
  2:{ unfold new_location. destruct (Z.even (Z.pos m)); reflexivity. }
  reflexivity.
Qed.

Lemma of_Z_div_self (n : Z) :
  0 < n < 2 ^ 53 -> (of_Z n / of_Z n)%float = 1%float.
Proof.
  intros Hn. destruct n as [|p|p]; try lia.
  apply Prim2SF_inj. rewrite div_spec, Prim2SF_of_Z_pos by lia.
  apply SF64div_self.
Qed.

Lemma sub_self_finite (x : float) s m e :
  Prim2SF x = S754_finite s m e -> (x - x)%float = 0%float.
Proof.
  intros H. apply Prim2SF_inj. rewrite sub_spec, H.
  unfold SF64sub, SFsub. rewrite Z.sub_diag. reflexivity.
Qed.

Lemma zero_div_finite (y : float) s m e :
  Prim2SF y = S754_finite s m e ->
  (0 / y)%float = (if s then neg_zero else zero).
Proof.
  intros H. apply Prim2SF_inj. rewrite div_spec, H. destruct s; reflexivity.
Qed.
Lemma valid_binary_inv (s : bool) (m : positive) (e : Z) :
  valid_binary (S754_finite s m e) = true ->
  -1074 <= e <= 971 /\ Z.pos (digits2_pos m) <= 53 /\
  (-1074 < e -> Z.pos (digits2_pos m) = 53).
Proof.
  cbn. unfold bounded, canonical_mantissa. intros H.
  apply andb_prop in H as [H1 H2]. apply Z.eqb_eq in H1. apply Z.leb_le in H2.
  unfold fexp, SpecFloat.emin, prec, emax in *. lia.
Qed.

(** No shift when the mantissa has at most 53 bits and the exponent is the
    least one. *)
Lemma shr_fexp_subnormal (m : Z) (l : location) :
  0 <= m -> Zdigits2 m <= 53 ->
  shr_fexp prec emax m (-1074) l = (shr_record_of_loc m l, -1074).
Proof.
  intros Hm Hd. unfold shr_fexp.
  replace (fexp prec emax (Zdigits2 m + -1074) - -1074) with 0; [reflexivity|].
  unfold fexp, SpecFloat.emin, prec, emax.
  assert (0 <= Zdigits2 m) by (destruct m; cbn; lia). lia.
Qed.

(** Half a finite number other than [Number.MIN_VALUE] is a finite number
    other than zero: halving lowers the exponent, or at the least exponent
    rounds one bit off. *)
Lemma SFmul_half (s : bool) (m : positive) (e : Z) :
  valid_binary (S754_finite s m e) = true ->
  (m = 1%positive -> e <> -1074) ->
  exists m' e',
    SF64mul (S754_finite s m e) (Prim2SF 0.5) = S754_finite s m' e'.
Proof.
  intros Hv Hmin. destruct (valid_binary_inv _ _ _ Hv) as (He & Hd & Hn).
  change (Prim2SF 0.5) with (S754_finite false 4503599627370496 (-53)).
  unfold SF64mul, SFmul. rewrite xorb_false_r.
  replace (m * 4503599627370496)%positive with (Pos.iter xO m 52)
    by (rewrite Pos.mul_comm; reflexivity).
  unfold binary_round_aux.
  destruct (Z.eq_dec e (-1074)) as [-> | Hne].
  - (* the least exponent: one bit is rounded off *)
    unfold shr_fexp at 1. unfold Zdigits2. rewrite digits2_pos_iter_xO.
    replace (fexp prec emax (Z.pos (digits2_pos m) + 52 + (-1074 + -53))
             - (-1074 + -53)) with 53
      by (unfold fexp, SpecFloat.emin, prec, emax; lia).
    unfold shr. cbn [shr_record_of_loc].
    change (-1074 + -53 + 53) with (-1074).
    destruct m as [p | p |]; [| |destruct (Hmin eq_refl eq_refl)].
    + (* odd: a tie, rounded to even *)
      change (SpecFloat.iter_pos shr_1 53
                {| shr_m := Z.pos (Pos.iter xO (xI p) 52);
                   shr_r := false; shr_s := false |})
        with {| shr_m := Z.pos p; shr_r := true; shr_s := false |}.
      cbn [shr_m loc_of_shr_record round_nearest_even].
      assert (Hp : Z.pos (digits2_pos p) <= 52) by (cbn in Hd; lia).
      pose proof (digits2_pos_bounds p) as [_ Hhi].
      assert (Hhi' : Z.pos p < 2 ^ 52).
      { assert (2 ^ Z.pos (digits2_pos p) <= 2 ^ 52)
          by (apply Z.pow_le_mono_r; lia). lia. }
      destruct (Z.even (Z.pos p)).
      * rewrite shr_fexp_subnormal by (cbn; lia). cbn. eauto.
      * change (Z.pos p + 1) with (Z.pos (p + 1)).
        rewrite shr_fexp_subnormal.
        -- cbn. eauto.
        -- lia.
        -- cbn. apply digits2_pos_le_53. lia.
    + change (SpecFloat.iter_pos shr_1 53
                {| shr_m := Z.pos (Pos.iter xO (xO p) 52);
                   shr_r := false; shr_s := false |})
        with {| shr_m := Z.pos p; shr_r := false; shr_s := false |}.
      cbn [shr_m loc_of_shr_record round_nearest_even].
      rewrite shr_fexp_subnormal by (cbn in *; lia). cbn. eauto.
  - (* a normal number: the exponent goes down by one *)
    assert (Hd53 : Z.pos (digits2_pos m) = 53) by (apply Hn; lia).
    unfold shr_fexp at 1. unfold Zdigits2. rewrite digits2_pos_iter_xO, Hd53.
    replace (fexp prec emax (53 + 52 + (e + -53)) - (e + -53)) with 52
      by (unfold fexp, SpecFloat.emin, prec, emax; lia).
    unfold shr.
    change (SpecFloat.iter_pos shr_1 52
              (shr_record_of_loc (Z.pos (Pos.iter xO m 52)) loc_Exact))
      with {| shr_m := Z.pos m; shr_r := false; shr_s := false |}.
    cbn [shr_m loc_of_shr_record round_nearest_even].
    replace (e + -53 + 52) with (e - 1) by lia.
    unfold shr_fexp, Zdigits2. rewrite Hd53.
    replace (fexp prec emax (53 + (e - 1)) - (e - 1)) with 0
      by (unfold fexp, SpecFloat.emin, prec, emax; lia).
    cbn [shr shr_record_of_loc shr_m].
    replace (e - 1 <=? emax - prec) with true; [eauto|].
    symmetry. apply Z.leb_le. unfold emax, prec. lia.
Qed.
End Binary64.

(** ** Which operations return a number *)

Section NumberClasses.
#[local] Open Scope Z_scope.

Lemma sf_signed_number s f : sf_signed s f = true -> sf_number f = true.
Proof. destruct f; cbn; congruence. Qed.

Lemma sf_signed_nonneg f : sf_signed false f = true -> sf_nonneg f = true.
Proof. destruct f as [[]|[]| |[] ? ?]; cbn; congruence. Qed.

Lemma sf_nonneg_number f : sf_nonneg f = true -> sf_number f = true.
Proof. destruct f as [[]|[]| |[] ? ?]; cbn; congruence. Qed.

Lemma iter_pos_invariant {A} (f : A -> A) (P : A -> Prop) :
  (forall x, P x -> P (f x)) ->
  forall n x, P x -> P (SpecFloat.iter_pos f n x).
Proof.
  intros Hf. induction n as [n IH | n IH |]; intros x Hx; cbn; auto.
Qed.

Lemma shr_1_nonneg (mrs : shr_record) :
  0 <= shr_m mrs -> 0 <= shr_m (shr_1 mrs).
Proof. destruct mrs as [[|[p|p|]|p] r s]; cbn; lia. Qed.

Lemma shr_fexp_nonneg (m e : Z) (l : location) :
  0 <= m -> 0 <= shr_m (fst (shr_fexp prec emax m e l)).
Proof.
  intros Hm. unfold shr_fexp, shr.
  assert (H0 : 0 <= shr_m (shr_record_of_loc m l))
    by (destruct l as [|[]]; exact Hm).
  destruct (fexp prec emax (Zdigits2 m + e) - e); cbn [fst]; try exact H0.
  apply (iter_pos_invariant shr_1 (fun r => 0 <= shr_m r) shr_1_nonneg), H0.
Qed.

Lemma round_nearest_even_nonneg (m : Z) (l : location) :
  0 <= m -> 0 <= round_nearest_even m l.
Proof.
  intros Hm. destruct l as [|[]]; cbn; try lia. destruct (Z.even m); lia.
Qed.

(** Rounding a mantissa that is not negative gives a number of the sign
    asked for: a zero, a finite number or an infinity, never [NaN]. *)
Lemma binary_round_aux_signed (s : bool) (m e : Z) (l : location) :
  0 <= m -> sf_signed s (binary_round_aux prec emax s m e l) = true.
Proof.
  intros Hm. unfold binary_round_aux.
  pose proof (shr_fexp_nonneg m e l Hm) as H1.
  destruct (shr_fexp prec emax m e l) as [mrs' e'] eqn:E1. cbn [fst] in H1.
  pose proof (shr_fexp_nonneg
                (round_nearest_even (shr_m mrs') (loc_of_shr_record mrs')) e'
                loc_Exact (round_nearest_even_nonneg _ _ H1)) as H2.
  destruct (shr_fexp prec emax _ e' loc_Exact) as [mrs'' e''] eqn:E2.
  cbn [fst] in H2.
  destruct (shr_m mrs'') as [|p|p]; try lia; cbn.
  - apply Bool.eqb_reflx.
  - destruct (e'' <=? emax - prec); cbn; apply Bool.eqb_reflx.
Qed.

Lemma binary_normalize_number (m e : Z) (z : bool) :
  sf_number (binary_normalize prec emax m e z) = true.
Proof.
  destruct m as [|p|p]; cbn [binary_normalize]; [reflexivity| |];
    unfold binary_round;
    destruct (shl_align p e (fexp prec emax (Z.pos (digits2_pos p) + e)));
    eapply sf_signed_number, binary_round_aux_signed; lia.
Qed.

Lemma binary_normalize_nonneg (m e : Z) :
  0 < m -> sf_nonneg (binary_normalize prec emax m e false) = true.
Proof.
  intros Hm. destruct m as [|p|p]; try lia. cbn [binary_normalize].
  unfold binary_round.
  destruct (shl_align p e (fexp prec emax (Z.pos (digits2_pos p) + e))).
  apply sf_signed_nonneg, binary_round_aux_signed. lia.
Qed.

Lemma SFadd_nonneg (x y : spec_float) :
  sf_nonneg x = true -> sf_nonneg y = true ->
  sf_nonneg (SF64add x y) = true.
Proof.
  destruct x as [[]|[]| |[] mx ex], y as [[]|[]| |[] my ey];
    try discriminate; try reflexivity; intros _ _.
  unfold SF64add, SFadd. apply binary_normalize_nonneg. cbn [cond_Zopp]. lia.
Qed.

Lemma SFmul_nonneg_finite (x : spec_float) (m : positive) (e : Z) :
  sf_nonneg x = true ->
  sf_nonneg (SF64mul x (S754_finite false m e)) = true.
Proof.
  destruct x as [[]|[]| |[] mx ex]; try discriminate; try reflexivity.
  intros _. unfold SF64mul, SFmul.
  apply sf_signed_nonneg, binary_round_aux_signed. lia.
Qed.

Lemma SFdiv_core_nonneg (m1 m2 : positive) (e1 e2 : Z) :
  0 <= fst (fst (SFdiv_core_binary prec emax (Z.pos m1) e1 (Z.pos m2) e2)).
Proof.
  unfold SFdiv_core_binary.
  set (e' := Z.min _ _). set (s := e1 - e2 - e').
  set (m' := match s with
             | Z.pos _ => Z.shiftl (Z.pos m1) s
             | 0 => Z.pos m1
             | Z.neg _ => 0
             end).
  assert (Hm' : 0 <= m').
  { unfold m'. destruct s; try lia. apply Z.shiftl_nonneg. lia. }
  pose proof (Z.div_pos m' (Z.pos m2) Hm' ltac:(lia)) as Hq.
  unfold Z.div in Hq. destruct (Z.div_eucl m' (Z.pos m2)) as [q r].
  exact Hq.
Qed.

(** A number divided by a finite number other than zero is a number. *)
Lemma SFdiv_number_finite (x : spec_float) (s : bool) (m : positive) (e : Z) :
  sf_number x = true -> sf_number (SF64div x (S754_finite s m e)) = true.
Proof.
  destruct x as [sx|sx| |sx mx ex]; try discriminate; try reflexivity.
  intros _. unfold SF64div, SFdiv.
  pose proof (SFdiv_core_nonneg mx m ex e) as Hq.
  destruct (SFdiv_core_binary prec emax (Z.pos mx) ex (Z.pos m) e)
    as [[q e'] l]. cbn [fst] in Hq.
  eapply sf_signed_number, binary_round_aux_signed, Hq.
Qed.

Lemma SFdiv_nonneg_finite (x : spec_float) (m : positive) (e : Z) :
  sf_nonneg x = true -> sf_nonneg (SF64div x (S754_finite false m e)) = true.
Proof.
  destruct x as [[]|[]| |[] mx ex]; try discriminate; try reflexivity.
  intros _. unfold SF64div, SFdiv.
  pose proof (SFdiv_core_nonneg mx m ex e) as Hq.
  destruct (SFdiv_core_binary prec emax (Z.pos mx) ex (Z.pos m) e)
    as [[q e'] l]. cbn [fst] in Hq.
  apply sf_signed_nonneg, binary_round_aux_signed, Hq.
Qed.

(** A difference of numbers is a number unless both are the same
    infinity. *)
Lemma SFsub_number (x y : spec_float) :
  sf_number x = true -> sf_number y = true ->
  (forall s, x = S754_infinity s -> y <> S754_infinity s) ->
  sf_number (SF64sub x y) = true.
Proof.
  destruct x as [sx|sx| |sx mx ex], y as [sy|sy| |sy my ey];
    try discriminate; try reflexivity; intros _ _ Hinf.
  - destruct sx, sy; reflexivity.
  - destruct sx, sy; try reflexivity; exfalso; eapply Hinf; reflexivity.
  - unfold SF64sub, SFsub. apply binary_normalize_number.
Qed.

Lemma SFabs_nonneg (x : spec_float) :
  sf_number x = true -> sf_nonneg (SFabs x) = true.
Proof. destruct x; try discriminate; reflexivity. Qed.

Lemma is_nan_number (x : float) :
  is_nan x = false <-> sf_number (Prim2SF x) = true.
Proof.
  split.
  - intros H. destruct (Prim2SF x) eqn:HP; try reflexivity.
    rewrite <- (SF2Prim_Prim2SF x), HP in H. discriminate.
  - intros H. unfold is_nan. rewrite FloatAxioms.eqb_spec.
    unfold SFeqb, SFcompare.
    destruct (Prim2SF x) as [[]|[]| |[] m e]; try discriminate;
      try reflexivity; now rewrite Z.compare_refl, Pos.compare_cont_refl.
Qed.

Lemma is_nan_true (x : float) : is_nan x = true -> x = nan.
Proof.
  intros H. destruct (Prim2SF x) eqn:HP;
    try (assert (Hf : is_nan x = false)
           by (apply is_nan_number; rewrite HP; reflexivity); congruence).
  rewrite <- (SF2Prim_Prim2SF x), HP. reflexivity.
Qed.

Lemma finite_nonzero_spec (x : float) :
  finite_nonzero x = true -> exists s m e, Prim2SF x = S754_finite s m e.
Proof.
  unfold finite_nonzero, is_finite, is_zero, is_infinity, is_nan.
  rewrite !FloatAxioms.eqb_spec, abs_spec. intros H.
  destruct (Prim2SF x) as [[]|[]| |s m e]; try discriminate; eauto.
Qed.

(** [Math.max(0, t)] of a number is a number and is not negative. *)
Lemma Math_max_zero_nonneg (t : float) :
  is_nan t = false -> sf_nonneg (Prim2SF (Math_max 0 t)) = true.
Proof.
  intros Hn. unfold Math_max. rewrite Hn. change (is_nan 0) with false.
  cbn [orb]. destruct (0 <? t)%float eqn:Hlt.
  - rewrite FloatAxioms.ltb_spec in Hlt.
    change (Prim2SF 0) with (S754_zero false) in Hlt.
    destruct (Prim2SF t) as [[]|[]| |[] m e]; try discriminate; reflexivity.
  - destruct (t <? 0)%float; [reflexivity|].
    change (get_sign 0) with false. reflexivity.
Qed.

(** [Math.min(q, 1)] of a number that is not negative is zero or a positive
    finite number. *)
Lemma Math_min_one_finite (q : float) :
  sf_nonneg (Prim2SF q) = true ->
  sf_finite_nonneg (Prim2SF (Math_min q 1)) = true.
Proof.
  intros Hq.
  pose proof (proj2 (is_nan_number q) (sf_nonneg_number _ Hq)) as Hn.
  unfold Math_min. rewrite Hn. change (is_nan 1) with false. cbn [orb].
  destruct (q <? 1)%float eqn:H1.
  - rewrite FloatAxioms.ltb_spec in H1.
    change (Prim2SF 1) with (S754_finite false 4503599627370496 (-52)) in H1.
    destruct (Prim2SF q) as [[]|[]| |[] m e]; try discriminate; reflexivity.
  - destruct (1 <? q)%float eqn:H2; [reflexivity|].
    rewrite FloatAxioms.ltb_spec in H2.
    change (Prim2SF 1) with (S754_finite false 4503599627370496 (-52)) in H2.
    destruct (get_sign q); [|reflexivity].
    destruct (Prim2SF q) as [[]|[]| |[] m e]; try discriminate; reflexivity.
Qed.

(** A budget that passes the guard and is not degenerate has a finite half
    other than zero. *)
Lemma half_finite_nonzero (x : float) :
  ToBoolean (VNum x) = true -> degenerate_budget x = false ->
  finite_nonzero (x * 0.5) = true.
Proof.
  unfold ToBoolean, degenerate_budget. intros Ht Hd.
  apply negb_true_iff, orb_false_elim in Ht as [Hz Hn].
  apply orb_false_elim in Hd as [Hi Hm].
  pose proof (Prim2SF_valid x) as Hv.
  unfold is_zero, is_infinity, is_nan in *.
  rewrite !FloatAxioms.eqb_spec, ?abs_spec in *.
  change (Prim2SF zero) with (S754_zero false) in Hz.
  change (Prim2SF infinity) with (S754_infinity false) in Hi.
  change (Prim2SF Number_MIN_VALUE) with (S754_finite false 1 (-1074)) in Hm.
  destruct (Prim2SF x) as [[]|[]| |s m e] eqn:HP; try discriminate.
  assert (Hmin : m = 1%positive -> e <> -1074).
  { intros -> ->. discriminate. }
  destruct (SFmul_half s m e Hv Hmin) as (m' & e' & Hh).
  unfold finite_nonzero, is_finite, is_zero, is_infinity, is_nan.
  rewrite !FloatAxioms.eqb_spec, abs_spec, mul_spec, HP, Hh.
  unfold SFeqb, SFcompare, SFabs.
  change (Prim2SF infinity) with (S754_infinity false).
  change (Prim2SF zero) with (S754_zero false).
  rewrite Z.compare_refl, Pos.compare_cont_refl. destruct s; reflexivity.
Qed.
End NumberClasses.

(** ** Rounding and clamping *)

Section RoundAndClamp.
#[local] Open Scope Z_scope.

Lemma score_values_In (k : Z) : 0 <= k <= 100 -> In k score_values.
Proof.
  intros Hk. apply in_map_iff. exists (Z.to_nat k). split; [lia|].
  apply in_seq. lia.
Qed.

(** On the integers from 0 to 100 the comparator's subtraction, the order
    and the equality of numbers are those of the integers; checked on all
    pairs. *)
Lemma score_values_compare (i j : Z) :
  0 <= i <= 100 -> 0 <= j <= 100 ->
  (0 <? of_Z j - of_Z i)%float = (i <? j) /\
  (of_Z j <=? of_Z i)%float = (j <=? i) /\
  (of_Z i =? of_Z j)%float = (i =? j) /\
  integer_part (of_Z i) = i.
Proof.
  intros Hi Hj.
  assert (H : forallb (fun i => forallb (fun j =>
              Bool.eqb (0 <? of_Z j - of_Z i)%float (i <? j)
              && Bool.eqb (of_Z j <=? of_Z i)%float (j <=? i)
              && Bool.eqb (of_Z i =? of_Z j)%float (i =? j)
              && (integer_part (of_Z i) =? i)) score_values) score_values
            = true) by evaluate.
  rewrite List.forallb_forall in H. specialize (H i (score_values_In i Hi)).
  rewrite List.forallb_forall in H. specialize (H j (score_values_In j Hj)).
  apply andb_prop in H as [H H4]. apply andb_prop in H as [H H3].
  apply andb_prop in H as [H1 H2].
  apply Bool.eqb_prop in H1, H2, H3. apply Z.eqb_eq in H4. auto.
Qed.

Lemma is_nan_finite (x : float) s m e :
  Prim2SF x = S754_finite s m e -> is_nan x = false.
Proof. intros H. apply is_nan_number. now rewrite H. Qed.

Lemma clamp_negative (x : float) m e :
  Prim2SF x = S754_finite true m e -> clamp x = 0%float.
Proof.
  intros H. pose proof (is_nan_finite _ _ _ _ H) as Hn.
  assert (H1 : (100 <? x)%float = false)
    by (rewrite FloatAxioms.ltb_spec, H; reflexivity).
  assert (H2 : (x <? 100)%float = true)
    by (rewrite FloatAxioms.ltb_spec, H; reflexivity).
  assert (H3 : (0 <? x)%float = false)
    by (rewrite FloatAxioms.ltb_spec, H; reflexivity).
  assert (H4 : (x <? 0)%float = true)
    by (rewrite FloatAxioms.ltb_spec, H; reflexivity).
  unfold clamp, Math_min. rewrite Hn, H1, H2.
  change (is_nan 100) with false. cbn [orb].
  unfold Math_max. rewrite Hn, H3, H4. reflexivity.
Qed.

Lemma clamp_large (x : float) m e :
  Prim2SF x = S754_finite false m e ->
  SFltb (Prim2SF 100) (S754_finite false m e) = true ->
  clamp x = 100%float.
Proof.
  intros H Hlt. pose proof (is_nan_finite _ _ _ _ H) as Hn.
  assert (H1 : (100 <? x)%float = true)
    by (rewrite FloatAxioms.ltb_spec, H; exact Hlt).
  unfold clamp, Math_min. rewrite Hn, H1.
  change (is_nan 100) with false. cbn [orb]. reflexivity.
Qed.

Lemma clamp_of_small (k : Z) : 0 <= k <= 100 -> clamp (of_Z k) = of_Z k.
Proof.
  intros Hk. apply FloatAxioms.Leibniz.eqb_spec.
  pose proof (score_values_In k Hk) as Hin. clear Hk. revert k Hin.
  apply List.forallb_forall. evaluate.
Qed.

(** Clamping an integer clamps it as an integer. *)
Lemma clamp_of_Z (k : Z) :
  - 2 ^ 53 < k < 2 ^ 53 -> clamp (of_Z k) = of_Z (Z.max 0 (Z.min 100 k)).
Proof.
  intros Hk. destruct (Z_lt_le_dec k 0) as [Hneg | Hnn].
  - replace (Z.max 0 (Z.min 100 k)) with 0 by lia.
    destruct k as [|p|p]; try lia.
    exact (clamp_negative _ _ _ (Prim2SF_of_Z_neg p ltac:(lia))).
  - destruct (Z_le_gt_dec k 100) as [Hs | Hl].
    + replace (Z.max 0 (Z.min 100 k)) with k by lia. apply clamp_of_small. lia.
    + replace (Z.max 0 (Z.min 100 k)) with 100 by lia.
      destruct k as [|p|p]; try lia.
      apply (clamp_large _ _ _ (Prim2SF_of_Z_pos p ltac:(lia))).
      change (Prim2SF 100) with (S754_finite false 7036874417766400 (-46)).
      pose proof (digits2_pos_bounds p) as [Hlo Hhi].
      pose proof (digits2_pos_le_53 p ltac:(lia)) as H53.
      set (d := Z.pos (digits2_pos p)) in *.
      assert (Hd : 7 <= d).
      { destruct (Z_le_gt_dec 7 d) as [|Hd]; [assumption|]. exfalso.
        assert (2 ^ d <= 2 ^ 6) by (apply Z.pow_le_mono_r; lia). lia. }
      unfold SFltb, SFcompare.
      destruct (Z.compare_spec (-46) (d - 53)) as [He | He | He];
        [|reflexivity|lia].
      unfold int_mantissa. fold d. rewrite <- He. cbv iota beta.
      rewrite Pos.compare_cont_spec. cbn [Pos.switch_Eq].
      replace (Pos.compare 7036874417766400 (Pos.iter xO p 46)) with Lt;
        [reflexivity|].
      symmetry. apply Pos.compare_lt_iff.
      change (Z.pos 7036874417766400 < Z.pos (Pos.iter xO p 46)).
      rewrite pos_iter_xO_Z. lia.
Qed.

Lemma round_half_up_bound (n e : Z) :
  e < 0 -> - 2 ^ 53 < n < 2 ^ 53 ->
  - 2 ^ 53 < Z.shiftr (n + 2 ^ (- e - 1)) (- e) < 2 ^ 53.
Proof.
  intros He Hn. rewrite Z.shiftr_div_pow2 by lia.
  replace (- e) with (Z.succ (- e - 1)) at 2 4 by lia.
  rewrite Z.pow_succ_r by lia.
  assert (Hh : 0 < 2 ^ (- e - 1)) by (apply Z.pow_pos_nonneg; lia).
  set (h := 2 ^ (- e - 1)) in *. split.
  - apply Z.lt_le_trans with (- 2 ^ 53 + 1); [lia|].
    apply Z.div_le_lower_bound; nia.
  - apply Z.div_lt_upper_bound; nia.
Qed.

(** Rounded and clamped, [NaN] stays [NaN] and every other number becomes
    an integer from 0 to 100. *)
Lemma clamp_round_range (x : float) :
  (is_nan x = true /\ clamp (Math_round x) = nan) \/
  (is_nan x = false /\
   exists k, 0 <= k <= 100 /\ clamp (Math_round x) = of_Z k).
Proof.
  destruct (is_nan x) eqn:Hnan.
  { left. split; [reflexivity|]. rewrite (is_nan_true x Hnan). reflexivity. }
  right. split; [reflexivity|].
  pose proof (Prim2SF_valid x) as Hv. pose proof (SF2Prim_Prim2SF x) as Hx.
  unfold Math_round.
  destruct (Prim2SF x) as [[]|[]| |s m e] eqn:HP; cbn [SF2Prim] in Hx; subst.
  - exists 0. split; [lia | reflexivity].
  - exists 0. split; [lia | reflexivity].
  - exists 0. split; [lia | reflexivity].
  - exists 100. split; [lia | reflexivity].
  - discriminate.
  - set (x := SF2Prim (S754_finite s m e)) in *.
    destruct (Z.leb_spec 0 e) as [He | He].
    + destruct s.
      * exists 0. split; [lia|]. exact (clamp_negative _ _ _ HP).
      * exists 100. split; [lia|]. apply (clamp_large _ _ _ HP).
        change (Prim2SF 100) with (S754_finite false 7036874417766400 (-46)).
        unfold SFltb, SFcompare.
        destruct (Z.compare_spec (-46) e); [lia | reflexivity | lia].
    + pose proof (valid_mantissa_bound _ _ _ Hv) as Hm.
      set (n := if s then Z.neg m else Z.pos m).
      assert (Hn : - 2 ^ 53 < n < 2 ^ 53) by (unfold n; destruct s; lia).
      pose proof (round_half_up_bound n e He Hn) as Hk.
      cbv zeta. fold n. set (k := Z.shiftr (n + 2 ^ (- e - 1)) (- e)) in *.
      destruct (Z.eqb_spec k 0) as [Hk0 | Hk0].
      * exists 0. split; [lia|]. destruct s; reflexivity.
      * exists (Z.max 0 (Z.min 100 k)). split; [lia|]. now apply clamp_of_Z.
Qed.
End RoundAndClamp.

(** ** Strings and lists *)

Lemma dropWhile_all {A} (f : A -> bool) (l : list A) :
  Forall (fun x => f x = true) l -> dropWhile f l = [].
Proof.
  induction 1 as [|x l Hx _ IH]; [reflexivity|]. cbn. rewrite Hx. exact IH.
Qed.

Lemma trim_blank (s : jsstring) :
  Forall (fun c => is_white_space c = true) s -> trim s = [].
Proof. intros H. unfold trim. rewrite (dropWhile_all _ _ H). reflexivity. Qed.

Lemma filter_keeps_all {A} (f : A -> bool) (l : list A) :
  (forall x, In x l -> f x = true) -> List.filter f l = l.
Proof.
  induction l as [|x l IH]; intros H; [reflexivity|]. cbn.
  rewrite (H x (or_introl eq_refl)). f_equal. apply IH.
  intros y Hy. apply H. now right.
Qed.

Lemma includes_In (l : list jsstring) (s : jsstring) :
  includes l s = true <-> In s l.
Proof.
  unfold includes, jsstring_eqb. rewrite existsb_exists. split.
  - intros (x & Hx & Heq). apply bool_decide_eq_true in Heq. now subst.
  - intros H. exists s. split; [exact H|]. now apply bool_decide_eq_true.
Qed.

Lemma str_ltb_lex (a b : jsstring) : str_ltb a b = true <-> lex_lt a b.
Proof.
  revert b; induction a as [|x a IH]; intros [|y b]; cbn.
  - split; [discriminate | inversion 1].
  - split; [constructor | reflexivity].
  - split; [discriminate | inversion 1].
  - destruct (N.ltb_spec x y) as [Hxy | Hxy].
    + split; [intros _; now constructor | reflexivity].
    + destruct (N.ltb_spec y x) as [Hyx | Hyx].
      * split; [discriminate|]. inversion 1; subst; lia.
      * assert (x = y) by lia. subst y. rewrite IH.
        split; [now constructor|]. inversion 1; subst; [lia | assumption].
Qed.

Lemma str_ltb_asym (a b : jsstring) :
  str_ltb a b = true -> str_ltb b a = false.
Proof.
  revert b; induction a as [|x a IH]; intros [|y b]; cbn; try discriminate;
    try reflexivity.
  destruct (N.ltb_spec x y), (N.ltb_spec y x); try lia; try discriminate;
    try reflexivity. apply IH.
Qed.

Lemma str_ltb_total (a b : jsstring) :
  str_ltb a b = false -> str_ltb b a = false -> a = b.
Proof.
  revert b; induction a as [|x a IH]; intros [|y b]; cbn; try discriminate;
    try reflexivity.
  destruct (N.ltb_spec x y), (N.ltb_spec y x); try lia; try discriminate.
  intros H1 H2. assert (x = y) by lia. subst. f_equal. now apply IH.
Qed.

(** ** The sort *)

Section InsertionSort.
Context {A : Type} (comparefn : A -> A -> float).

Lemma insert_sorted_perm (x : A) (l : list A) :
  Permutation (insert_sorted comparefn x l) (x :: l).
Proof.
  induction l as [|y l IH]; cbn; [reflexivity|].
  destruct (0 <? comparefn x y)%float; [|reflexivity].
  rewrite IH. apply perm_swap.
Qed.

Lemma sort_perm (l : list A) : Permutation (sort comparefn l) l.
Proof.
  induction l as [|x l IH]; cbn; [reflexivity|].
  rewrite insert_sorted_perm. now constructor.
Qed.

(** From here on the comparator orders by an integer key, larger keys
    first, on the elements that satisfy [ok]. *)
Context (key : A -> Z) (ok : A -> Prop).
Hypothesis comparefn_key :
  forall a b, ok a -> ok b ->
    (0 <? comparefn a b)%float = (key a <? key b)%Z.

Lemma insert_sorted_sorted (x : A) (l : list A) :
  ok x -> Forall ok l ->
  StronglySorted (fun a b => (key b <= key a)%Z) l ->
  StronglySorted (fun a b => (key b <= key a)%Z) (insert_sorted comparefn x l).
Proof.
  intros Hx Hl Hs. induction Hs as [|y l Hs IH Hy]; cbn.
  - repeat constructor.
  - pose proof (List.Forall_inv Hl) as Hoy.
    pose proof (List.Forall_inv_tail Hl) as Hol.
    rewrite (comparefn_key x y Hx Hoy).
    destruct (Z.ltb_spec (key x) (key y)) as [Hlt | Hge].
    + constructor; [now apply IH|].
      rewrite (insert_sorted_perm x l). constructor; [lia | exact Hy].
    + constructor; [now constructor|].
      constructor; [exact Hge|].
      eapply List.Forall_impl; [|exact Hy]. cbn. intros; lia.
Qed.

Lemma sort_sorted (l : list A) :
  Forall ok l ->
  StronglySorted (fun a b => (key b <= key a)%Z) (sort comparefn l).
Proof.
  induction 1 as [|x l Hx Hl IH]; cbn; [constructor|].
  apply insert_sorted_sorted; [exact Hx | | exact IH].
  now rewrite (sort_perm l).
Qed.

(** Insertion never moves an element across one of the same key. *)
Lemma insert_sorted_stable (k : Z) (x : A) (l : list A) :
  ok x -> Forall ok l ->
  List.filter (fun a => (key a =? k)%Z) (insert_sorted comparefn x l)
  = List.filter (fun a => (key a =? k)%Z) (x :: l).
Proof.
  intros Hx Hl. induction Hl as [|y l Hy Hl IH]; [reflexivity|].
  cbn [insert_sorted]. rewrite (comparefn_key x y Hx Hy).
  destruct (Z.ltb_spec (key x) (key y)) as [Hlt | Hge]; [|reflexivity].
  cbn [List.filter] in *. rewrite IH.
  destruct (Z.eqb_spec (key x) k), (Z.eqb_spec (key y) k); try reflexivity.
  lia.
Qed.

Lemma sort_stable (k : Z) (l : list A) :
  Forall ok l ->
  List.filter (fun a => (key a =? k)%Z) (sort comparefn l)
  = List.filter (fun a => (key a =? k)%Z) l.
Proof.
  induction 1 as [|x l Hx Hl IH]; [reflexivity|].
  cbn [sort foldr]. fold (sort comparefn l).
  rewrite insert_sorted_stable; [|exact Hx | now rewrite (sort_perm l)].
  cbn [List.filter]. now rewrite IH.
Qed.
End InsertionSort.

(** ** The scorer *)

Section Scorer.
Context {E : Engine}.

Lemma calculateMatchScore_eq (me other : profile) :
  calculateMatchScore me other =
  Math_max 0 (Math_min 100 (Math_round
    (0 + budgetPoints me other + neighborhoodPoints me other
       + preferencePoints me other))).
Proof. reflexivity. Qed.

Lemma toNumber_unusable (v : value) :
  unusable_budget v -> toNumber v = VNull.
Proof.
  intros [-> | [-> | Hnan]]; [reflexivity | reflexivity |].
  unfold toNumber, Number_isNaN. rewrite Hnan.
  destruct (negb (ToBoolean v) && negb (strict_eq_num v 0)); reflexivity.
Qed.

Lemma toNumber_zero_falsy (v : value) :
  is_zero (ToNumber v) = true -> ToBoolean (toNumber v) = false.
Proof.
  intros Hz. unfold toNumber.
  destruct (negb (ToBoolean v) && negb (strict_eq_num v 0)); [reflexivity|].
  cbn zeta. destruct (Number_isNaN (ToNumber v)); [reflexivity|].
  unfold ToBoolean. rewrite Hz. reflexivity.
Qed.

(** The budget block takes its [else] branch as soon as one converted
    budget is falsy. *)
Lemma budgetPoints_neutral (me other : profile) :
  ToBoolean (toNumber (prop me "budget")) = false \/
  ToBoolean (toNumber (prop other "budget")) = false ->
  budgetPoints me other = 20%float.
Proof.
  unfold budgetPoints. intros [-> | ->]; [reflexivity|].
  rewrite andb_false_r. reflexivity.
Qed.

Lemma normalize_blank (v : value) : blank_entry v -> normalize v = [].
Proof.
  intros (s & -> & Hs). unfold normalize.
  change (ToString (VStr s)) with s.
  rewrite (trim_blank _ Hs). apply toLowerCase_empty.
Qed.

Lemma asArrayOfLowercase_array (l : list value) :
  asArrayOfLowercase (VArr l) =
  List.filter (fun s => (0 <? length s)%nat) (List.map normalize l).
Proof. reflexivity. Qed.

Lemma asArrayOfLowercase_In (l : list value) (s : jsstring) :
  In s (asArrayOfLowercase (VArr l)) <->
  s <> [] /\ exists v, In v l /\ normalize v = s.
Proof.
  rewrite asArrayOfLowercase_array, filter_In, in_map_iff.
  split; intros [H1 H2].
  - split; [|destruct H1 as (v & <- & Hv); eauto].
    intros ->. discriminate.
  - split; [destruct H2 as (v & Hv & <-); eauto|].
    destruct s; [congruence | reflexivity].
Qed.

Lemma asArrayOfLowercase_length (l : list value) :
  (length (asArrayOfLowercase (VArr l)) <= length l)%nat.
Proof.
  rewrite asArrayOfLowercase_array.
  etransitivity; [apply filter_length_le|]. now rewrite length_map.
Qed.

Lemma asArrayOfLowercase_blank (l : list value) :
  Forall blank_entry l -> asArrayOfLowercase (VArr l) = [].
Proof.
  intros H. rewrite asArrayOfLowercase_array.
  induction H as [|v l Hv _ IH]; [reflexivity|].
  cbn. rewrite (normalize_blank _ Hv). exact IH.
Qed.

(** An overlap block takes its [else] branch as soon as one normalized
    list is empty. *)
Lemma overlapPoints_neutral field weight neutral (me other : profile) :
  asArrayOfLowercase (prop me field) = [] \/
  asArrayOfLowercase (prop other field) = [] ->
  overlapPoints field weight neutral me other = neutral.
Proof.
  unfold overlapPoints. intros [-> | ->]; [reflexivity|].
  cbn. rewrite andb_false_r. reflexivity.
Qed.

(** When every normalized label of the viewer is among the candidate's,
    the ratio is [n / n] for the number [n] of the viewer's labels. *)
Lemma overlapPoints_all_shared field weight neutral (me other : profile) :
  let mine := asArrayOfLowercase (prop me field) in
  let theirs := asArrayOfLowercase (prop other field) in
  mine <> [] -> (Z.of_nat (length mine) < 2 ^ 53)%Z ->
  (forall s, In s mine -> In s theirs) ->
  overlapPoints field weight neutral me other = (1 * weight)%float.
Proof.
  intros mine theirs Hne Hlen Hall. unfold overlapPoints.
  fold mine theirs.
  assert (Hm : (0 <? length mine)%nat = true).
  { destruct mine; [congruence | reflexivity]. }
  assert (Ht : (0 <? length theirs)%nat = true).
  { destruct mine as [|s mine']; [congruence|].
    pose proof (Hall s (or_introl eq_refl)) as Hs.
    destruct theirs; [destruct Hs | reflexivity]. }
  rewrite Hm, Ht. cbn [andb].
  rewrite (filter_keeps_all (fun n => includes theirs n) mine)
    by (intros s Hs; apply includes_In, Hall, Hs).
  unfold of_nat. rewrite of_Z_div_self; [reflexivity|].
  apply Nat.ltb_lt in Hm. lia.
Qed.

Lemma asArrayOfLowercase_short (v : value) :
  (length (asArrayOfLowercase v) <= length (elements v))%nat.
Proof.
  destruct v as [| | | | |l|]; try apply asArrayOfLowercase_length;
    unfold asArrayOfLowercase;
    match goal with
    | |- context [negb (ToBoolean ?v)] => destruct (negb (ToBoolean v))
    end; cbn; lia.
Qed.

Lemma toNumber_truthy (v : value) :
  ToBoolean (toNumber v) = true ->
  exists x, toNumber v = VNum x /\ is_nan x = false.
Proof.
  unfold toNumber.
  destruct (negb (ToBoolean v) && negb (strict_eq_num v 0)); [discriminate|].
  cbn zeta. unfold Number_isNaN.
  destruct (is_nan (ToNumber v)) eqn:Hn; [discriminate|]. eauto.
Qed.

(** An overlap sub-score is a number and is not negative. *)
Lemma overlapPoints_nonneg field weight neutral (me other : profile) mw ew :
  Prim2SF weight = S754_finite false mw ew ->
  sf_nonneg (Prim2SF neutral) = true ->
  (Z.of_nat (length (asArrayOfLowercase (prop me field))) < 2 ^ 53)%Z ->
  sf_nonneg (Prim2SF (overlapPoints field weight neutral me other)) = true.
Proof.
  intros Hw Hneu Hlen. unfold overlapPoints.
  set (mine := asArrayOfLowercase (prop me field)) in *.
  set (theirs := asArrayOfLowercase (prop other field)).
  destruct ((0 <? length mine)%nat && (0 <? length theirs)%nat) eqn:Hg;
    [|exact Hneu].
  apply andb_prop in Hg as [Hm _]. apply Nat.ltb_lt in Hm.
  set (shared := List.filter (fun n => includes theirs n) mine).
  assert (Hsh : (length shared <= length mine)%nat)
    by apply filter_length_le.
  rewrite mul_spec, Hw.
  assert (Hq : sf_nonneg (Prim2SF (of_nat (length shared)
                                   / of_nat (length mine))) = true).
  { rewrite div_spec.
    destruct (Prim2SF_of_nat (length mine) Hlen) as [H0 | (m & e & ->)].
    - exfalso. unfold of_nat in H0.
      destruct (Z.of_nat (length mine)) as [|p|p] eqn:Hp; try lia.
      rewrite Prim2SF_of_Z_pos in H0 by lia. discriminate.
    - apply SFdiv_nonneg_finite.
      destruct (Prim2SF_of_nat (length shared) ltac:(lia))
        as [-> | (m' & e' & ->)]; reflexivity. }
  pose proof (Math_min_one_finite _ Hq) as Hr.
  apply SFmul_nonneg_finite.
  destruct (Prim2SF (Math_min _ 1)) as [[]|[]| |[] ? ?]; try discriminate;
    reflexivity.
Qed.

(** The budget sub-score is a number and is not negative when the formula
    is not applied, or half the viewer's budget is finite and not zero. *)
Lemma budgetPoints_nonneg (me other : profile) :
  ToBoolean (toNumber (prop me "budget"))
    && ToBoolean (toNumber (prop other "budget")) = false \/
  finite_nonzero (ToNumber (toNumber (prop me "budget")) * 0.5) = true ->
  sf_nonneg (Prim2SF (budgetPoints me other)) = true.
Proof.
  intros H. unfold budgetPoints.
  destruct (ToBoolean (toNumber (prop me "budget"))
            && ToBoolean (toNumber (prop other "budget"))) eqn:Hg;
    [|reflexivity].
  destruct H as [H | H]; [discriminate|].
  apply andb_prop in Hg as [Hx Hy].
  destruct (toNumber_truthy _ Hx) as (x & Hx' & Hxn).
  destruct (toNumber_truthy _ Hy) as (y & Hy' & Hyn).
  rewrite Hx', Hy' in *. cbn [ToNumber] in *.
  destruct (finite_nonzero_spec _ H) as (sh & mh & eh & Hh).
  assert (Hxf : exists s m e, Prim2SF x = S754_finite s m e).
  { rewrite mul_spec in Hh.
    change (Prim2SF 0.5) with (S754_finite false 4503599627370496 (-53)) in Hh.
    destruct (Prim2SF x) as [[]|[]| |s m e]; try discriminate; eauto. }
  destruct Hxf as (sx & mx & ex & Hxf).
  rewrite mul_spec.
  change (Prim2SF 40) with (S754_finite false 5629499534213120 (-47)).
  apply SFmul_nonneg_finite, Math_max_zero_nonneg, is_nan_number.
  rewrite sub_spec.
  change (Prim2SF 1) with (S754_finite false 4503599627370496 (-52)).
  apply SFsub_number; [reflexivity| |discriminate].
  rewrite div_spec, Hh. apply SFdiv_number_finite.
  unfold Math_abs. rewrite abs_spec. apply sf_nonneg_number, SFabs_nonneg.
  rewrite sub_spec, Hxf. apply SFsub_number; [reflexivity| |discriminate].
  now apply is_nan_number.
Qed.

(** A score is [NaN] or an integer from 0 to 100. *)
Lemma score_nan_or_integer (A B : profile) :
  is_nan (calculateMatchScore A B) = true \/
  exists k, (0 <= k <= 100)%Z /\ calculateMatchScore A B = of_Z k.
Proof.
  rewrite calculateMatchScore_eq.
  match goal with
  | |- context [Math_round ?s] =>
      destruct (clamp_round_range s) as [[_ H] | [_ H]]
  end.
  - left. unfold clamp in H. rewrite H. reflexivity.
  - right. exact H.
Qed.

(** The score is an integer from 0 to 100 when the viewer's lists are short
    enough for their lengths to be exact and the budget sub-score is a
    number. *)
Lemma score_integer (A B : profile) :
  (Z.of_nat (length (elements (prop A "neighborhoods"))) < 2 ^ 32)%Z ->
  (Z.of_nat (length (elements (prop A "roommatePreferences"))) < 2 ^ 32)%Z ->
  ToBoolean (toNumber (prop A "budget"))
    && ToBoolean (toNumber (prop B "budget")) = false \/
  finite_nonzero (ToNumber (toNumber (prop A "budget")) * 0.5) = true ->
  exists k, (0 <= k <= 100)%Z /\ calculateMatchScore A B = of_Z k.
Proof.
  intros Hn Hp Hb.
  assert (Hlen : forall v,
            (Z.of_nat (length (elements v)) < 2 ^ 32)%Z ->
            (Z.of_nat (length (asArrayOfLowercase v)) < 2 ^ 53)%Z).
  { intros v Hv. pose proof (asArrayOfLowercase_short v). lia. }
  rewrite calculateMatchScore_eq.
  match goal with
  | |- context [Math_round ?s] =>
      destruct (clamp_round_range s) as [[Hnan _] | [_ H]];
        [exfalso | exact H]
  end.
  apply Bool.not_false_iff_true in Hnan. apply Hnan, is_nan_number.
  apply sf_nonneg_number. rewrite !add_spec.
  repeat apply SFadd_nonneg.
  - reflexivity.
  - now apply budgetPoints_nonneg.
  - eapply overlapPoints_nonneg; [reflexivity | reflexivity |].
    now apply Hlen.
  - eapply overlapPoints_nonneg; [reflexivity | reflexivity |].
    now apply Hlen.
Qed.

(** C3. If the budget of [A] or of [B] is missing or not a valid number
    (the field is absent or [null], or its value converts to [NaN]), the
    budget sub-score is exactly 20 whatever the other budget is, and a
    score is produced: the clamped, rounded sum of 20 and the two other
    sub-scores, an integer from 0 to 100 when the viewer's lists have
    fewer than [2^32] entries, as every array has. [calculateMatchScore] is
    a total function: there is no path on which it fails. *)
Theorem invalid_budget_neutral (A B : profile) :
  unusable_budget (prop A "budget") \/ unusable_budget (prop B "budget") ->
  budgetPoints A B = 20%float /\
  calculateMatchScore A B =
    Math_max 0 (Math_min 100 (Math_round
      (0 + 20 + neighborhoodPoints A B + preferencePoints A B))) /\
  ((Z.of_nat (length (elements (prop A "neighborhoods"))) < 2 ^ 32)%Z ->
   (Z.of_nat (length (elements (prop A "roommatePreferences"))) < 2 ^ 32)%Z ->
   exists k, (0 <= k <= 100)%Z /\ calculateMatchScore A B = of_Z k).
Proof.
  intros H.
  assert (Hg : ToBoolean (toNumber (prop A "budget")) = false \/
               ToBoolean (toNumber (prop B "budget")) = false).
  { destruct H as [H | H]; [left | right];
      rewrite (toNumber_unusable _ H); reflexivity. }
  pose proof (budgetPoints_neutral A B Hg) as Hb.
  split; [exact Hb|]. split.
  - rewrite calculateMatchScore_eq, Hb. reflexivity.
  - intros Hn Hp. apply score_integer; [exact Hn | exact Hp |]. left.
    destruct Hg as [-> | ->]; [reflexivity | apply andb_false_r].
Qed.

(** C4, as amended. If the neighborhoods of [A] and [B] are arrays (of
    fewer than [2^32] entries, as every array is), some entry of [A]'s is
    not empty once normalized, and every entry of [A]'s normalizes to the
    same text as some entry of [B]'s, then the neighborhood sub-score is
    exactly 35. *)
Theorem shared_neighborhoods_full (A B : profile) (la lb : list value) :
  prop A "neighborhoods" = VArr la ->
  prop B "neighborhoods" = VArr lb ->
  (Z.of_nat (length la) < 2 ^ 32)%Z ->
  (exists a, In a la /\ normalize a <> []) ->
  (forall a, In a la -> exists b, In b lb /\ normalize a = normalize b) ->
  neighborhoodPoints A B = 35%float.
Proof.
  intros HA HB Hlen (a0 & Ha0 & Hne0) Hshare.
  unfold neighborhoodPoints.
  rewrite overlapPoints_all_shared; rewrite ?HA, ?HB.
  - reflexivity.
  - intros Hnil.
    assert (Hin : In (normalize a0) (asArrayOfLowercase (VArr la)))
      by (apply asArrayOfLowercase_In; eauto).
    rewrite Hnil in Hin. destruct Hin.
  - pose proof (asArrayOfLowercase_length la). lia.
  - intros s Hs. apply asArrayOfLowercase_In in Hs as (Hsne & a & Ha & <-).
    destruct (Hshare a Ha) as (b & Hb & Hab).
    apply asArrayOfLowercase_In. split; [exact Hsne | eauto].
Qed.

(** C6. The score reads three fields only: two viewers that agree on
    [budget], [neighborhoods] and [roommatePreferences], scored against
    two candidates that agree on them, get the same score, whatever their
    other fields hold. *)
Theorem score_reads_three_fields (A A' B B' : profile) :
  A !! "budget" = A' !! "budget" ->
  A !! "neighborhoods" = A' !! "neighborhoods" ->
  A !! "roommatePreferences" = A' !! "roommatePreferences" ->
  B !! "budget" = B' !! "budget" ->
  B !! "neighborhoods" = B' !! "neighborhoods" ->
  B !! "roommatePreferences" = B' !! "roommatePreferences" ->
  calculateMatchScore A B = calculateMatchScore A' B'.
Proof.
  intros Ha1 Ha2 Ha3 Hb1 Hb2 Hb3.
  unfold calculateMatchScore, budgetPoints, neighborhoodPoints,
    preferencePoints, overlapPoints, prop.
  rewrite Ha1, Ha2, Ha3, Hb1, Hb2, Hb3. reflexivity.
Qed.

(** C7. The score is not symmetric: with budgets 1000 and 1400 and
    nothing else filled in, the score is 38 one way and 47 the other; the
    two list sub-scores are the same both ways and the budget sub-score,
    whose [maxDiff] is half the viewer's budget, is not. *)
Theorem score_asymmetric :
  exists A B : profile,
    prop A "budget" = VNum 1000 /\ prop B "budget" = VNum 1400 /\
    calculateMatchScore A B = 38%float /\
    calculateMatchScore B A = 47%float /\
    (calculateMatchScore A B =? calculateMatchScore B A)%float = false /\
    neighborhoodPoints A B = neighborhoodPoints B A /\
    preferencePoints A B = preferencePoints B A /\
    (budgetPoints A B =? budgetPoints B A)%float = false.
Proof.
  exists (Examples.with_budget 1000), (Examples.with_budget 1400).
  do 7 (split; [evaluate|]). evaluate.
Qed.

(** C9. A budget that converts to the number 0 is treated like a missing
    one: the guard of the similarity formula is false and the budget
    sub-score is the neutral 20. *)
Theorem zero_budget_neutral (A B : profile) :
  is_zero (ToNumber (prop A "budget")) = true \/
  is_zero (ToNumber (prop B "budget")) = true ->
  ToBoolean (toNumber (prop A "budget"))
    && ToBoolean (toNumber (prop B "budget")) = false /\
  budgetPoints A B = 20%float.
Proof.
  intros H.
  assert (Hf : ToBoolean (toNumber (prop A "budget")) = false \/
               ToBoolean (toNumber (prop B "budget")) = false).
  { destruct H as [H | H]; [left | right]; exact (toNumber_zero_falsy _ H). }
  split; [|exact (budgetPoints_neutral _ _ Hf)].
  destruct Hf as [-> | ->]; [reflexivity | apply andb_false_r].
Qed.

(** C10. A list whose entries are all empty or white-space-only strings
    normalizes to the empty list, as an absent list does, so with such a
    list on either side the neighborhood sub-score is the neutral 18 and
    the preference sub-score the neutral 12. *)
Theorem blank_lists_neutral (A B : profile) (l : list value) :
  Forall blank_entry l ->
  asArrayOfLowercase (VArr l) = asArrayOfLowercase VUndefined /\
  (prop A "neighborhoods" = VArr l \/ prop B "neighborhoods" = VArr l ->
   neighborhoodPoints A B = 18%float) /\
  (prop A "roommatePreferences" = VArr l \/
   prop B "roommatePreferences" = VArr l ->
   preferencePoints A B = 12%float).
Proof.
  intros Hl. pose proof (asArrayOfLowercase_blank l Hl) as Hnil.
  split; [exact Hnil|].
  split; intros H; apply overlapPoints_neutral;
    destruct H as [-> | ->]; auto.
Qed.
(** X1. The score is an integer from 0 to 100 whenever the viewer's two
    lists are arrays of fewer than [2^32] entries (as every array is) and
    the viewer's budget, as [toNumber] reads it, is neither infinite nor
    plus or minus [Number.MIN_VALUE]. *)
Theorem score_in_range (A B : profile) :
  (Z.of_nat (length (elements (prop A "neighborhoods"))) < 2 ^ 32)%Z ->
  (Z.of_nat (length (elements (prop A "roommatePreferences"))) < 2 ^ 32)%Z ->
  degenerate_budget (ToNumber (toNumber (prop A "budget"))) = false ->
  exists k, (0 <= k <= 100)%Z /\ calculateMatchScore A B = of_Z k.
Proof.
  intros Hn Hp Hb. apply score_integer; [exact Hn | exact Hp |].
  destruct (ToBoolean (toNumber (prop A "budget"))) eqn:Hx; [|now left].
  right. destruct (toNumber_truthy _ Hx) as (x & Hx' & _).
  rewrite Hx' in *. now apply half_finite_nonzero.
Qed.

(** X2. Two budgets that [toNumber] reads as the same number [x], not
    zero, neither infinite nor plus or minus [Number.MIN_VALUE], give the
    budget sub-score 40 exactly. *)
Theorem equal_budgets_full (A B : profile) (x : float) :
  toNumber (prop A "budget") = VNum x ->
  toNumber (prop B "budget") = VNum x ->
  ToBoolean (VNum x) = true ->
  degenerate_budget x = false ->
  budgetPoints A B = 40%float.
Proof.
  intros HA HB Ht Hd. unfold budgetPoints. rewrite HA, HB, Ht.
  cbn [ToNumber andb].
  pose proof (half_finite_nonzero x Ht Hd) as Hh.
  destruct (finite_nonzero_spec _ Hh) as (sh & mh & eh & Hhalf).
  assert (Hxf : exists s m e, Prim2SF x = S754_finite s m e).
  { rewrite mul_spec in Hhalf.
    change (Prim2SF 0.5) with (S754_finite false 4503599627370496 (-53))
      in Hhalf.
    destruct (Prim2SF x) as [[]|[]| |s m e]; try discriminate; eauto. }
  destruct Hxf as (sx & mx & ex & Hxf).
  rewrite (sub_self_finite x _ _ _ Hxf). change (Math_abs 0) with 0%float.
  rewrite (zero_div_finite _ _ _ _ Hhalf). destruct sh; reflexivity.
Qed.

(** A list that is absent, not an array, or empty once normalized, on
    either side, gives the neutral sub-score: 18 for neighborhoods and 12
    for preferences. *)
Theorem empty_list_neutral (A B : profile) :
  (asArrayOfLowercase (prop A "neighborhoods") = [] \/
   asArrayOfLowercase (prop B "neighborhoods") = [] ->
   neighborhoodPoints A B = 18%float) /\
  (asArrayOfLowercase (prop A "roommatePreferences") = [] \/
   asArrayOfLowercase (prop B "roommatePreferences") = [] ->
   preferencePoints A B = 12%float).
Proof. split; apply overlapPoints_neutral. Qed.

(** X5. A viewer with no budget, no neighborhoods and no preferences gets
    the score 50 for every candidate. *)
Theorem unset_viewer_scores_50 (A B : profile) :
  A !! "budget" = None -> A !! "neighborhoods" = None ->
  A !! "roommatePreferences" = None ->
  calculateMatchScore A B = 50%float.
Proof.
  intros Hb Hn Hp. rewrite calculateMatchScore_eq.
  rewrite budgetPoints_neutral
    by (left; unfold prop; rewrite Hb; reflexivity).
  unfold neighborhoodPoints, preferencePoints.
  rewrite !overlapPoints_neutral
    by (left; unfold prop; rewrite ?Hn, ?Hp; reflexivity).
  reflexivity.
Qed.
End Scorer.

(** ** Scores that are not numbers

    The three failures below have one cause: the budget block divides by
    half the viewer's budget without asking whether the quotient is a
    number, and [Math.max], [Math.round] and [Math.min] hand a [NaN] on. *)

Section NotANumber.
Context {E : Engine}.

(** C1. The code at a viewer whose budget is the number [Infinity] and a
    candidate whose budget is 1: [toNumber] keeps the budget, [diff] and
    [maxDiff] are both infinite, their quotient is [NaN], and so is the
    score. On the reference engine the same happens for the budget text
    ["1e999"]. *)
Theorem score_of_infinite_budget :
  toNumber (VNum infinity) = VNum infinity /\
  calculateMatchScore (Examples.with_budget infinity)
    (Examples.with_budget 1) = nan /\
  calculateMatchScore (E := Reference.engine) Examples.huge_budget
    (Examples.with_budget 1) = nan.
Proof.
  split; [evaluate|]. split; evaluate.
Qed.

(** C2. The code at [unbounded_viewer] and three candidates, on the
    reference engine: the scores are 50, [NaN] and 80, every comparison with
    the [NaN] score is read as a tie, and the ranked list is the input list,
    the candidate scored 50 ahead of the one scored 80. *)
Theorem ranking_with_nan_score :
  List.map (fun p => (prop p "name", prop p "matchScore"))
    (rankProfilesWithMatchScore (E := Reference.engine)
       Examples.unbounded_viewer
       [Examples.blank_candidate; Examples.budget_candidate;
        Examples.matching_candidate])
  = [(VStr (str "Ada"), VNum 50); (VStr (str "Bora"), VNum nan);
     (VStr (str "Cem"), VNum 80)].
Proof. evaluate. Qed.

(** C5. The code at two equal budgets, both the smallest positive number
    [5e-324]: the budgets are kept by [toNumber] and are truthy, half of
    one rounds to 0, [0 / 0] is [NaN], and so is the budget sub-score. The
    same happens when both budgets are [Infinity]. *)
Theorem equal_budgets_without_points :
  toNumber (prop Examples.tiny_budget "budget") = VNum Number_MIN_VALUE /\
  ToBoolean (VNum Number_MIN_VALUE) = true /\
  (Number_MIN_VALUE * 0.5 = 0)%float /\
  budgetPoints Examples.tiny_budget Examples.tiny_budget = nan /\
  budgetPoints (Examples.with_budget infinity)
    (Examples.with_budget infinity) = nan.
Proof.
  split; [evaluate|].
  split; [evaluate|].
  split; [evaluate|].
  split; evaluate.
Qed.
End NotANumber.

(** ** The ranker *)

Section Ranker.
Context {E : Engine}.

Lemma rankProfilesWithMatchScore_eq (myProfile : profile)
    (others : list profile) :
  rankProfilesWithMatchScore myProfile others =
  sort (fun a b => (matchScore b - matchScore a)%float)
    (List.map (scored myProfile) others).
Proof. reflexivity. Qed.

Lemma matchScore_scored (myProfile p : profile) :
  prop (scored myProfile p) "matchScore"
  = VNum (calculateMatchScore myProfile p).
Proof. unfold prop, scored. now rewrite lookup_insert_eq. Qed.

(** On entries whose scores are integers from 0 to 100 the comparator
    orders by the integer. *)
Lemma comparator_key (a b : profile) :
  score_ok a -> score_ok b ->
  (0 <? matchScore b - matchScore a)%float
  = (integer_part (matchScore a) <? integer_part (matchScore b))%Z.
Proof.
  intros (i & Hi & Ha) (j & Hj & Hb). unfold matchScore. rewrite Ha, Hb.
  cbn [ToNumber].
  destruct (score_values_compare i j Hi Hj) as (H1 & _ & _ & H4).
  destruct (score_values_compare j i Hj Hi) as (_ & _ & _ & H4').
  now rewrite H1, H4, H4'.
Qed.

Lemma sorted_by_score (s : list profile) :
  Forall score_ok s ->
  StronglySorted
    (fun a b =>
       (integer_part (matchScore b) <= integer_part (matchScore a))%Z) s ->
  StronglySorted (fun a b => (matchScore b <=? matchScore a)%float = true) s.
Proof.
  intros Hok Hs. induction Hs as [|a s Hs IH Ha]; constructor.
  - apply IH. exact (List.Forall_inv_tail Hok).
  - destruct (List.Forall_inv Hok) as (i & Hi & Hai).
    pose proof (List.Forall_inv_tail Hok) as Hs'. clear IH Hok Hs.
    induction Ha as [|b s Hb Ha IHa]; constructor.
    + destruct (List.Forall_inv Hs') as (j & Hj & Hbj).
      unfold matchScore in *. rewrite Hai, Hbj in *. cbn [ToNumber] in *.
      destruct (score_values_compare i j Hi Hj) as (_ & H2 & _ & H4).
      destruct (score_values_compare j i Hj Hi) as (_ & _ & _ & H4').
      rewrite H2. rewrite H4, H4' in Hb. now apply Z.leb_le.
    + apply IHa. exact (List.Forall_inv_tail Hs').
Qed.

(** X4. Whatever the scores are, the ranker returns one entry per
    candidate: the candidates, each with its score added, in some order. *)
Theorem ranking_permutation (viewer : profile) (candidates : list profile) :
  length (rankProfilesWithMatchScore viewer candidates) = length candidates /\
  Permutation (rankProfilesWithMatchScore viewer candidates)
    (List.map (scored viewer) candidates) /\
  (forall c, In c candidates ->
     prop (scored viewer c) "matchScore"
     = VNum (calculateMatchScore viewer c) /\
     forall k, k <> "matchScore" -> scored viewer c !! k = c !! k).
Proof.
  rewrite rankProfilesWithMatchScore_eq.
  pose proof (sort_perm (fun a b => (matchScore b - matchScore a)%float)
                (List.map (scored viewer) candidates)) as Hperm.
  split; [|split; [exact Hperm|]].
  - rewrite (Permutation_length Hperm). apply length_map.
  - intros c _. split; [apply matchScore_scored|].
    intros k Hk. unfold scored. now rewrite lookup_insert_ne.
Qed.

(** X3. When no candidate's score is [NaN], the ranked list is sorted by
    score, highest first, and candidates with the same score keep the order
    they had in the input. *)
Theorem ranking_sorted_stable (viewer : profile) (candidates : list profile) :
  (forall c, In c candidates ->
     is_nan (calculateMatchScore viewer c) = false) ->
  StronglySorted (fun a b => (matchScore b <=? matchScore a)%float = true)
    (rankProfilesWithMatchScore viewer candidates) /\
  (forall k, (0 <= k <= 100)%Z ->
     List.filter (fun a => (matchScore a =? of_Z k)%float)
       (rankProfilesWithMatchScore viewer candidates)
     = List.filter (fun a => (matchScore a =? of_Z k)%float)
         (List.map (scored viewer) candidates)).
Proof.
  intros Hnan. rewrite rankProfilesWithMatchScore_eq.
  set (cmp := fun a b => (matchScore b - matchScore a)%float).
  set (l := List.map (scored viewer) candidates).
  assert (Hok : Forall score_ok l).
  { apply List.Forall_forall. intros a Ha.
    apply in_map_iff in Ha as (c & <- & Hc).
    unfold score_ok. rewrite matchScore_scored.
    destruct (score_nan_or_integer viewer c) as [H | (k & Hk & ->)].
    - rewrite (Hnan c Hc) in H. discriminate.
    - eauto. }
  pose proof (sort_perm cmp l) as Hperm.
  assert (Hok' : Forall score_ok (sort cmp l)) by now rewrite Hperm.
  split.
  - apply sorted_by_score; [exact Hok'|].
    exact (sort_sorted cmp (fun a => integer_part (matchScore a)) score_ok
             comparator_key l Hok).
  - intros k Hk.
    pose proof (sort_stable cmp (fun a => integer_part (matchScore a))
                  score_ok comparator_key k l Hok) as Hst.
    assert (Hf : forall s, Forall score_ok s ->
              List.filter (fun a => (matchScore a =? of_Z k)%float) s
              = List.filter
                  (fun a => (integer_part (matchScore a) =? k)%Z) s).
    { intros s Hs. apply List.filter_ext_in. intros a Ha.
      rewrite List.Forall_forall in Hs.
      destruct (Hs a Ha) as (i & Hi & Hai). unfold matchScore.
      rewrite Hai. cbn [ToNumber].
      destruct (score_values_compare i k Hi Hk) as (_ & _ & H3 & H4).
      now rewrite H3, H4. }
    now rewrite !Hf.
Qed.
End Ranker.

(** ** The chat key *)

Section ChatKey.
Context {E : Engine}.

Lemma getChatId_strings (a b : jsstring) :
  a <> [] -> b <> [] ->
  getChatId (VStr a) (VStr b) =
  if str_ltb a b then VStr (a ++ str "_" ++ b) else VStr (b ++ str "_" ++ a).
Proof.
  intros Ha Hb. unfold getChatId, lessThan. cbn.
  destruct a; [congruence|]. destruct b; [congruence|]. reflexivity.
Qed.

Lemma getChatId_missing (u v : value) :
  missing u \/ missing v -> getChatId u v = VNull.
Proof.
  intros H. unfold getChatId.
  assert (Hg : negb (ToBoolean u) || negb (ToBoolean v) = true).
  { destruct H as [[-> | [-> | ->]] | [-> | [-> | ->]]];
      try reflexivity; apply orb_true_r. }
  rewrite Hg. reflexivity.
Qed.

(** C8. For non-empty identifiers [a] and [b], [getChatId(a, b)] equals
    [getChatId(b, a)] and is the lexicographically smaller of the two,
    then ["_"], then the larger; and [getChatId] is [null] as soon as one
    identifier is missing. *)
Theorem getChatId_canonical (a b : jsstring) :
  a <> [] -> b <> [] ->
  getChatId (VStr a) (VStr b) = getChatId (VStr b) (VStr a) /\
  (exists lo hi,
      (lo = a /\ hi = b \/ lo = b /\ hi = a) /\
      (lex_lt lo hi \/ lo = hi) /\
      getChatId (VStr a) (VStr b) = VStr (lo ++ str "_" ++ hi)) /\
  (forall u v, missing u \/ missing v -> getChatId u v = VNull).
Proof.
  intros Ha Hb. rewrite !getChatId_strings by assumption.
  split; [|split; [|exact getChatId_missing]].
  - destruct (str_ltb a b) eqn:Hab, (str_ltb b a) eqn:Hba; try reflexivity.
    + rewrite (str_ltb_asym _ _ Hab) in Hba. discriminate.
    + now rewrite (str_ltb_total _ _ Hab Hba).
  - destruct (str_ltb a b) eqn:Hab.
    + exists a, b. rewrite <- str_ltb_lex. auto.
    + exists b, a. destruct (str_ltb b a) eqn:Hba.
      * rewrite <- str_ltb_lex. auto.
      * rewrite (str_ltb_total _ _ Hab Hba). auto.
Qed.
End ChatKey.

(** ** Trimming *)

Section Trimming.

Lemma dropWhile_split {A} (f : A -> bool) (l : list A) :
  exists w, l = w ++ dropWhile f l /\ Forall (fun x => f x = true) w.
Proof.
  induction l as [|x l (w & Hl & Hw)].
  { exists []. split; [reflexivity | constructor]. }
  cbn. destruct (f x) eqn:Hx.
  - exists (x :: w). split; [cbn; congruence | now constructor].
  - exists []. split; [reflexivity | constructor].
Qed.

Lemma dropWhile_head {A} (f : A -> bool) (l : list A) x r :
  dropWhile f l = x :: r -> f x = false.
Proof.
  induction l as [|y l IH]; cbn; [discriminate|].
  destruct (f y) eqn:Hy; [exact IH|]. now intros [= <- _].
Qed.

Lemma dropWhile_app_all {A} (f : A -> bool) (w l : list A) :
  Forall (fun x => f x = true) w -> dropWhile f (w ++ l) = dropWhile f l.
Proof. induction 1 as [|x w Hx _ IH]; [reflexivity|]. cbn. now rewrite Hx. Qed.

Lemma dropWhile_app_keep {A} (f : A -> bool) (l r : list A) x t :
  dropWhile f l = x :: t -> dropWhile f (l ++ r) = dropWhile f l ++ r.
Proof.
  induction l as [|y l IH]; cbn; [discriminate|].
  destruct (f y); [exact IH | reflexivity].
Qed.

Lemma trim_tight (s : jsstring) : tight (trim s).
Proof.
  unfold trim.
  destruct (dropWhile_split is_white_space (rev (dropWhile is_white_space s)))
    as (w & Hw & Hws).
  set (a := dropWhile is_white_space s) in *.
  set (b := dropWhile is_white_space (rev a)) in *.
  assert (Ha : a = rev b ++ rev w).
  { rewrite <- (rev_involutive a), Hw, rev_app_distr. reflexivity. }
  split.
  - intros c r Hc. rewrite Hc in Ha. cbn in Ha.
    exact (dropWhile_head is_white_space s c _ Ha).
  - intros r c Hc.
    assert (Hb : b = c :: rev r).
    { rewrite <- (rev_involutive b), Hc, rev_app_distr. reflexivity. }
    exact (dropWhile_head is_white_space (rev a) c _ Hb).
Qed.

Lemma dropWhile_fixed {A} (f : A -> bool) (l : list A) :
  (forall x r, l = x :: r -> f x = false) -> dropWhile f l = l.
Proof.
  destruct l as [|x l]; [reflexivity|]. intros H. cbn.
  now rewrite (H x l eq_refl).
Qed.

Lemma tight_trim (s : jsstring) : tight s -> trim s = s.
Proof.
  intros [Hh Hl]. unfold trim. rewrite (dropWhile_fixed _ s Hh).
  rewrite dropWhile_fixed; [apply rev_involutive|].
  intros x r Hx. apply (Hl (rev r)).
  rewrite <- (rev_involutive s), Hx. reflexivity.
Qed.


(** White space around a string does not change what [trim] returns. *)
Lemma trim_padding (pre s post : jsstring) :
  Forall (fun c => is_white_space c = true) pre ->
  Forall (fun c => is_white_space c = true) post ->
  trim (pre ++ s ++ post) = trim s.
Proof.
  intros Hpre Hpost. unfold trim. rewrite (dropWhile_app_all _ _ _ Hpre).
  destruct (dropWhile is_white_space s) as [|x t] eqn:Hs.
  - destruct (dropWhile_split is_white_space s) as (w & Hw & Hws).
    rewrite Hs, app_nil_r in Hw. subst w.
    rewrite <- (app_nil_r (s ++ post)), <- app_assoc.
    rewrite (dropWhile_app_all _ _ _ Hws), app_nil_r.
    rewrite (dropWhile_all _ _ Hpost). reflexivity.
  - rewrite (dropWhile_app_keep _ _ _ _ _ Hs), Hs.
    rewrite rev_app_distr.
    rewrite dropWhile_app_all; [reflexivity|].
    apply List.Forall_rev. exact Hpost.
Qed.

Lemma trim_nonempty_truthy (s : jsstring) :
  ToBoolean (VStr (trim s)) = true <-> trim s <> [].
Proof. cbn. destruct (trim s); cbn; split; congruence. Qed.

Lemma tightb_tight (s : jsstring) : tightb s = true -> tight s.
Proof.
  destruct s as [|c r]; cbn.
  - intros _. split; [discriminate|]. intros [|? ?]; discriminate.
  - intros H. apply andb_prop in H as [H1 H2].
    apply negb_true_iff in H1, H2. split.
    + now intros c' r' [= <- _].
    + intros r' c' Heq.
      assert (Hl : List.last (c :: r) c = c').
      { rewrite Heq. apply List.last_last. }
      destruct r as [|x r0]; [cbn in Hl; now subst|].
      change (List.last (x :: r0) c = c') in Hl. now subst.
Qed.

Lemma not_In_forallb (c : N) (l : jsstring) :
  forallb (fun x => negb (x =? c)%N) l = true -> ~ In c l.
Proof.
  intros H Hin. rewrite forallb_forall in H. specialize (H c Hin).
  now rewrite N.eqb_refl in H.
Qed.

End Trimming.

(** ** Signing up *)

Section SigningUp.
Context {E : Engine}.
Import AuthPage.

Lemma isUniversityEmail_blank (email : jsstring) :
  trim email = [] -> isUniversityEmail email = false.
Proof.
  intros H. unfold isUniversityEmail. rewrite H, toLowerCase_empty.
  reflexivity.
Qed.

(** X6. The verdict of [isUniversityEmail] is the same with white space
    before and after the address. *)
Theorem university_email_ignores_padding (pre email post : jsstring) :
  Forall (fun c => is_white_space c = true) pre ->
  Forall (fun c => is_white_space c = true) post ->
  isUniversityEmail (pre ++ email ++ post) = isUniversityEmail email.
Proof.
  intros Hpre Hpost. unfold isUniversityEmail.
  now rewrite (trim_padding _ _ _ Hpre Hpost).
Qed.

(** X7. [handleSignup] calls the sign-in service exactly when the address
    passes [isUniversityEmail], the password is not blank and has six code
    units or more, counted before trimming; the call gets the address and
    the password as typed. The first check, for a blank address, changes
    the message only: a blank address is no university address. *)
Theorem signup_reaches_service (email password : jsstring) :
  (handleSignup email password = SignupCreateUser email password <->
   isUniversityEmail email = true /\ trim password <> [] /\
   (6 <= length password)%nat) /\
  (forall e p, handleSignup email password = SignupCreateUser e p ->
     e = email /\ p = password) /\
  (trim email = [] ->
   handleSignup email password
   = SignupMessage "Please enter your university email." /\
   isUniversityEmail email = false).
Proof.
  unfold handleSignup.
  destruct (ToBoolean (VStr (trim email))) eqn:He; cbn [negb].
  - apply trim_nonempty_truthy in He.
    destruct (isUniversityEmail email) eqn:Hu; cbn [negb].
    + destruct (ToBoolean (VStr (trim password))) eqn:Hp; cbn [negb].
      * apply trim_nonempty_truthy in Hp.
        destruct (Nat.ltb_spec (length password) 6) as [Hl | Hl].
        -- split; [|split]; [split| |]; try discriminate; try congruence.
           intros (_ & _ & H). lia.
        -- split; [|split]; [split| |]; try congruence; auto.
           now intros e p [= <- <-].
      * assert (Hp' : trim password = []).
        { destruct (trim password) eqn:Ht; [reflexivity | discriminate]. }
        split; [|split]; [split| |]; try discriminate; try congruence.
        intros (_ & H & _). congruence.
    + split; [|split]; [split| |]; try discriminate; try congruence.
      intros (H & _). discriminate.
  - assert (He' : trim email = []).
    { destruct (trim email) eqn:Ht; [reflexivity | discriminate]. }
    pose proof (isUniversityEmail_blank _ He') as Hu.
    split; [|split]; [split| |]; try discriminate; auto.
    intros (H & _). congruence.
Qed.
End SigningUp.

(** ** Chat rooms and messages *)

Section ChatRooms.
Context {E : Engine}.
Import ChatPage.

(** A text is cut at its first ["_"] in one way only. *)
Lemma split_at_underscore (x x' y y' : jsstring) :
  ~ In 95%N x -> ~ In 95%N x' ->
  x ++ str "_" ++ y = x' ++ str "_" ++ y' -> x = x' /\ y = y'.
Proof.
  change (str "_") with [95%N]. cbn [app].
  revert x'; induction x as [|c x IH]; intros [|c' x'] Hx Hx'; cbn.
  - now intros [= <-].
  - intros [= <- _]. exfalso. apply Hx'. now left.
  - intros [= -> _]. exfalso. apply Hx. now left.
  - intros [= <- H]. destruct (IH x') as [-> ->]; auto.
    + intros Hin. apply Hx. now right.
    + intros Hin. apply Hx'. now right.
Qed.

Lemma getChatId_pair (a b c d : jsstring) :
  a <> [] -> b <> [] -> c <> [] -> d <> [] ->
  ~ In 95%N a -> ~ In 95%N b -> ~ In 95%N c -> ~ In 95%N d ->
  getChatId (VStr a) (VStr b) = getChatId (VStr c) (VStr d) ->
  a = c /\ b = d \/ a = d /\ b = c.
Proof.
  intros Ha Hb Hc Hd Ua Ub Uc Ud.
  rewrite !getChatId_strings by assumption.
  destruct (str_ltb a b), (str_ltb c d); intros [= H];
    apply split_at_underscore in H as [-> ->]; auto.
Qed.

Lemma getChatId_swap (a b : jsstring) :
  a <> [] -> b <> [] ->
  getChatId (VStr a) (VStr b) = getChatId (VStr b) (VStr a).
Proof.
  intros Ha Hb. rewrite !getChatId_strings by assumption.
  destruct (str_ltb a b) eqn:Hab, (str_ltb b a) eqn:Hba; try reflexivity.
  - rewrite (str_ltb_asym _ _ Hab) in Hba. discriminate.
  - now rewrite (str_ltb_total _ _ Hab Hba).
Qed.

Lemma setupChat_room (a b : jsstring) :
  b <> [] -> a <> b ->
  setupChat (Some a) (VStr b) = SetupChatId (getChatId (VStr a) (VStr b)).
Proof.
  intros Hb Hab. unfold setupChat.
  assert (H1 : ToBoolean (VStr b) = true)
    by (destruct b; [congruence | reflexivity]).
  assert (H2 : strict_eq_str (VStr b) a = false).
  { cbn. unfold jsstring_eqb. apply bool_decide_eq_false. congruence. }
  now rewrite H1, H2.
Qed.

(** X8. Two users who open a chat with each other enter the same room, and
    no other pair of users enters it, when no identifier contains ["_"]:
    the rooms of two pairs are the same exactly when the pairs are, up to
    order. *)
Theorem chat_room_identifies_pair (a b c d : jsstring) :
  a <> [] -> b <> [] -> c <> [] -> d <> [] -> a <> b -> c <> d ->
  ~ In 95%N a -> ~ In 95%N b -> ~ In 95%N c -> ~ In 95%N d ->
  (exists room,
     setupChat (Some a) (VStr b) = SetupChatId (VStr room) /\
     setupChat (Some b) (VStr a) = SetupChatId (VStr room)) /\
  (setupChat (Some a) (VStr b) = setupChat (Some c) (VStr d) <->
   a = c /\ b = d \/ a = d /\ b = c).
Proof.
  intros Ha Hb Hc Hd Hab Hcd Ua Ub Uc Ud.
  rewrite !setupChat_room by congruence.
  split.
  - rewrite <- (getChatId_swap a b) by assumption.
    rewrite getChatId_strings by assumption.
    destruct (str_ltb a b); eauto.
  - split.
    + intros [= H]. now apply getChatId_pair.
    + intros [[-> ->] | [-> ->]]; [reflexivity|].
      now rewrite getChatId_swap.
Qed.

(** The restriction on ["_"] is needed: the users [a_b] and [c] get the
    room of the users [a] and [b_c]. *)
Example chat_room_collision :
  setupChat (Some (str "a_b")) (VStr (str "c"))
  = setupChat (Some (str "a")) (VStr (str "b_c")).
Proof. reflexivity. Qed.

(** X9. A message that [handleSend] sends goes to the room the page is in,
    and its text is the typed text trimmed, not empty, with no white space
    at either end; it names the sender, so that the sender's page shows it
    as the sender's own. A blank text is never sent. *)
Theorem sent_message_is_trimmed (chatId otherUid createdAt room : value)
    (currentUser : option jsstring) (newMessage : jsstring) (m : profile) :
  handleSend chatId currentUser otherUid newMessage createdAt
  = Some (room, m) ->
  room = chatId /\ ToBoolean chatId = true /\
  (exists text,
     prop m "text" = VStr text /\ text = trim newMessage /\
     text <> [] /\ tight text) /\
  (exists myUid,
     currentUser = Some myUid /\ prop m "fromUid" = VStr myUid) /\
  prop m "toUid" = otherUid /\
  isMine m currentUser = true.
Proof.
  unfold handleSend. destruct currentUser as [myUid|]; [|discriminate].
  destruct (ToBoolean chatId) eqn:Hc; [|discriminate].
  destruct (ToBoolean otherUid) eqn:Ho; [|discriminate]. cbn [negb orb].
  destruct (ToBoolean (VStr (trim newMessage))) eqn:Ht; [|discriminate].
  cbn [negb]. intros [= <- <-].
  apply trim_nonempty_truthy in Ht.
  split; [reflexivity|]. split; [reflexivity|].
  split.
  { exists (trim newMessage). split; [|split; [reflexivity|split]].
    - unfold prop. now rewrite lookup_insert_eq.
    - exact Ht.
    - apply trim_tight. }
  split.
  { exists myUid. split; [reflexivity|]. unfold prop.
    rewrite lookup_insert_ne by done. now rewrite lookup_insert_eq. }
  split.
  { unfold prop. rewrite !lookup_insert_ne by done.
    now rewrite lookup_insert_eq. }
  unfold isMine, prop. rewrite lookup_insert_ne by done.
  rewrite lookup_insert_eq. cbn. unfold jsstring_eqb.
  now apply bool_decide_eq_true.
Qed.
End ChatRooms.

(** ** The profile form *)

Section ProfileForm.
Import CreateProfile.

Lemma strict_eq_str_true (v : value) (s : jsstring) :
  strict_eq_str v s = true <-> v = VStr s.
Proof.
  destruct v; cbn; try (split; [discriminate | congruence]).
  unfold jsstring_eqb. rewrite bool_decide_eq_true.
  split; congruence.
Qed.

Lemma Array_includes_In (l : list value) (s : jsstring) :
  Array_includes l s = true <-> In (VStr s) l.
Proof.
  unfold Array_includes. rewrite existsb_exists. split.
  - intros (v & Hv & Heq). apply strict_eq_str_true in Heq. now subst.
  - intros H. exists (VStr s). split; [exact H|]. now apply strict_eq_str_true.
Qed.

(** The list an "add" handler leaves, and the list a "remove" handler
    leaves. *)
Lemma add_tag_clean (l : list value) (t : jsstring) :
  t <> [] -> tight t -> clean_tags l ->
  clean_tags (if negb (Array_includes l t) then l ++ [VStr t] else l).
Proof.
  intros Hne Ht [Hnd Hall].
  destruct (Array_includes l t) eqn:Hin; cbn [negb]; [now split|].
  split.
  - apply NoDup_app. split; [exact Hnd|]. split; [|apply NoDup_singleton].
    intros v Hv Hv'. apply list_elem_of_In in Hv.
    apply list_elem_of_singleton in Hv'. subst v.
    apply Array_includes_In in Hv. congruence.
  - apply Forall_app. split; [exact Hall|]. constructor; [|constructor].
    exists t. auto.
Qed.

Lemma remove_tag_clean (l : list value) (t : jsstring) :
  clean_tags l ->
  clean_tags (List.filter (fun n => negb (strict_eq_str n t)) l).
Proof.
  intros [Hnd Hall]. split.
  - apply NoDup_ListNoDup, List.NoDup_filter, NoDup_ListNoDup, Hnd.
  - apply List.Forall_forall. intros v Hv. apply filter_In in Hv as [Hv _].
    rewrite List.Forall_forall in Hall. auto.
Qed.

Lemma tag_step_clean (st : form) (a : tag_action) :
  clean_tags (neighborhoods st) -> clean_tags (roommatePreferences st) ->
  clean_tags (neighborhoods (tag_step st a)) /\
  clean_tags (roommatePreferences (tag_step st a)).
Proof.
  intros Hn Hp. destruct a as [text|chip|tag|text|chip|tag]; cbn.
  - now split.
  - unfold addNeighborhoodTag.
    set (t := trim (default (neighborhoodInput st) chip)).
    destruct (ToBoolean (VStr t)) eqn:Ht; cbn [negb]; [|now split].
    apply trim_nonempty_truthy in Ht.
    pose proof (add_tag_clean (neighborhoods st) t Ht (trim_tight _) Hn) as H.
    destruct (Array_includes (neighborhoods st) t); cbn in *; now split.
  - now split; [apply remove_tag_clean|].
  - now split.
  - unfold addRoommatePrefTag.
    set (t := trim (default (roommatePrefInput st) chip)).
    destruct (ToBoolean (VStr t)) eqn:Ht; cbn [negb]; [|now split].
    apply trim_nonempty_truthy in Ht.
    pose proof (add_tag_clean (roommatePreferences st) t Ht (trim_tight _) Hp)
      as H.
    destruct (Array_includes (roommatePreferences st) t); cbn in *; now split.
  - now split; [|apply remove_tag_clean].
Qed.

(** X10. Whatever the user types, adds and removes, the two tag lists stay
    clean: every tag a non-empty string without white space at its ends,
    and no tag twice in a list. *)
Theorem tag_lists_stay_clean (st : form) (actions : list tag_action) :
  clean_tags (neighborhoods st) -> clean_tags (roommatePreferences st) ->
  clean_tags (neighborhoods (fold_left tag_step actions st)) /\
  clean_tags (roommatePreferences (fold_left tag_step actions st)).
Proof.
  revert st. induction actions as [|a actions IH]; intros st Hn Hp; cbn.
  - now split.
  - destruct (tag_step_clean st a Hn Hp) as [Hn' Hp']. now apply IH.
Qed.



(** The document [handleSaveProfile] hands to the store, field by
    field. *)
Lemma saved_fields (uid : jsstring) (st : form) (data : profile) :
  handleSaveProfile (Some uid) st = SaveSetDoc uid data ->
  exists n a b,
    name st = VStr n /\ age st = VStr a /\ bio st = VStr b /\
    trim n <> [] /\
    data =
      <["name" := VStr (trim n)]>
        (<["age" := VStr (trim a)]>
           (<["gender" := gender st]>
              (<["hasHouse" := VBool (hasHouse st)]>
                 (<["bio" := VStr (trim b)]>
                    (<["profilePhoto" := or_else (profilePhoto st) (VStr [])]>
                       (<["homePhotos" :=
                            VArr (if hasHouse st then homePhotos st else [])]>
                          (<["neighborhoods" := VArr (neighborhoods st)]>
                             {[ "roommatePreferences" :=
                                  VArr (roommatePreferences st) ]}))))))).
Proof.
  unfold handleSaveProfile.
  destruct (name st) as [| | | |n| |]; cbn [String_trim]; try discriminate.
  destruct (ToBoolean (VStr (trim n))) eqn:Hn; cbn [negb]; [|discriminate].
  apply trim_nonempty_truthy in Hn.
  destruct (age st) as [| | | |a| |]; cbn [String_trim]; try discriminate.
  destruct (bio st) as [| | | |b| |]; cbn [String_trim]; try discriminate.
  intros [= <-]. exists n, a, b. auto.
Qed.

Lemma handleSaveProfile_user (currentUser : option jsstring) (st : form)
    (uid : jsstring) (data : profile) :
  handleSaveProfile currentUser st = SaveSetDoc uid data ->
  currentUser = Some uid.
Proof.
  unfold handleSaveProfile. destruct currentUser as [u|]; [|discriminate].
  destruct (String_trim (name st)); [|discriminate].
  destruct (negb _); [discriminate|].
  destruct (String_trim (age st)), (String_trim (bio st)); try discriminate.
  now intros [= <- _].
Qed.

Lemma saved_fields_lookup (st : form) (n a b : jsstring) (old : profile) :
  let data :=
    <["name" := VStr (trim n)]>
      (<["age" := VStr (trim a)]>
         (<["gender" := gender st]>
            (<["hasHouse" := VBool (hasHouse st)]>
               (<["bio" := VStr (trim b)]>
                  (<["profilePhoto" := or_else (profilePhoto st) (VStr [])]>
                     (<["homePhotos" :=
                          VArr (if hasHouse st then homePhotos st else [])]>
                        (<["neighborhoods" := VArr (neighborhoods st)]>
                           {[ "roommatePreferences" :=
                                VArr (roommatePreferences st) ]}))))))) in
  let stored := setDoc_merge data old in
  prop stored "name" = VStr (trim n) /\
  prop stored "age" = VStr (trim a) /\
  prop stored "gender" = gender st /\
  prop stored "hasHouse" = VBool (hasHouse st) /\
  prop stored "bio" = VStr (trim b) /\
  prop stored "profilePhoto" = or_else (profilePhoto st) (VStr []) /\
  prop stored "homePhotos" = VArr (if hasHouse st then homePhotos st else []) /\
  prop stored "neighborhoods" = VArr (neighborhoods st) /\
  prop stored "roommatePreferences" = VArr (roommatePreferences st) /\
  data !! "budget" = None.
Proof.
  intros data stored. unfold stored, data, prop, setDoc_merge.
  repeat split;
    try (erewrite lookup_union_Some_l; [reflexivity|]);
    repeat (rewrite lookup_insert_ne by done);
    rewrite ?lookup_insert_eq, ?lookup_singleton_eq,
      ?lookup_singleton_ne by done;
    reflexivity.
Qed.

Lemma saved_fields_other (st : form) (n a b : jsstring) (old : profile)
    (k : string) :
  ~ In k ["name"; "age"; "gender"; "hasHouse"; "bio"; "profilePhoto";
          "homePhotos"; "neighborhoods"; "roommatePreferences"] ->
  setDoc_merge
    (<["name" := VStr (trim n)]>
      (<["age" := VStr (trim a)]>
         (<["gender" := gender st]>
            (<["hasHouse" := VBool (hasHouse st)]>
               (<["bio" := VStr (trim b)]>
                  (<["profilePhoto" := or_else (profilePhoto st) (VStr [])]>
                     (<["homePhotos" :=
                          VArr (if hasHouse st then homePhotos st else [])]>
                        (<["neighborhoods" := VArr (neighborhoods st)]>
                           {[ "roommatePreferences" :=
                                VArr (roommatePreferences st) ]}))))))))
    old !! k = old !! k.
Proof.
  intros Hk. unfold setDoc_merge. apply lookup_union_r.
  cbn in Hk.
  repeat (rewrite lookup_insert_ne by (intros <-; tauto)).
  apply lookup_singleton_ne. intros <-. tauto.
Qed.

Section WithScorer.
Context {E : Engine}.

(** X12. The profile form never writes a budget: saving leaves the stored
    [budget] as it was, and a profile that this page alone has written
    has none, so its budget sub-score is the neutral 20 against every
    other profile, whichever of the two is the viewer. *)
Theorem saved_profile_leaves_budget (currentUser : option jsstring)
    (st : form) (uid : jsstring) (data : profile) :
  handleSaveProfile currentUser st = SaveSetDoc uid data ->
  data !! "budget" = None /\
  (forall old, prop (setDoc_merge data old) "budget" = prop old "budget") /\
  (forall old other,
     old !! "budget" = None ->
     budgetPoints (setDoc_merge data old) other = 20%float /\
     budgetPoints other (setDoc_merge data old) = 20%float).
Proof.
  intros H. pose proof (handleSaveProfile_user _ _ _ _ H) as ->.
  destruct (saved_fields _ _ _ H) as (n & a & b & _ & _ & _ & _ & ->).
  assert (Hold : forall old k,
            k = "budget" ->
            prop (setDoc_merge
                    (<["name" := VStr (trim n)]>
                      (<["age" := VStr (trim a)]>
                        (<["gender" := gender st]>
                          (<["hasHouse" := VBool (hasHouse st)]>
                            (<["bio" := VStr (trim b)]>
                              (<["profilePhoto" :=
                                   or_else (profilePhoto st) (VStr [])]>
                                (<["homePhotos" :=
                                     VArr (if hasHouse st then homePhotos st
                                           else [])]>
                                  (<["neighborhoods" :=
                                       VArr (neighborhoods st)]>
                                    {[ "roommatePreferences" :=
                                         VArr (roommatePreferences st)
                                    ]})))))))) old) k
            = prop old k).
  { intros old k ->. unfold prop. rewrite saved_fields_other; [reflexivity|].
    cbn. intros Hin. repeat (destruct Hin as [Hin | Hin]; [discriminate|]).
    exact Hin. }
  split; [apply (saved_fields_lookup st n a b ∅)|].
  split; [intros old; now apply Hold|].
  intros old other Hnone.
  assert (Hb : prop old "budget" = VUndefined)
    by (unfold prop; now rewrite Hnone).
  split; apply budgetPoints_neutral; [left | right];
    rewrite Hold by reflexivity; rewrite Hb; reflexivity.
Qed.
End WithScorer.




End ProfileForm.

(** ** Mutual likes *)

Section MutualLikes.
Import Matches.

Lemma same_value_zero_string (v : value) (u : jsstring) :
  same_value_zero (VStr u) v = true <-> v = VStr u.
Proof.
  destruct v; cbn; try (split; [discriminate | congruence]).
  unfold jsstring_eqb. rewrite bool_decide_eq_true. split; congruence.
Qed.

Lemma Set_has_string (s : list value) (u : jsstring) :
  Set_has s (VStr u) = true <-> In (VStr u) s.
Proof.
  unfold Set_has. rewrite existsb_exists. split.
  - intros (v & Hv & Heq). apply same_value_zero_string in Heq. now subst.
  - intros H. exists (VStr u). split; [exact H|].
    now apply same_value_zero_string.
Qed.

Lemma Set_add_string (s : list value) (v : value) (u : jsstring) :
  In (VStr u) (Set_add s v) <-> In (VStr u) s \/ v = VStr u.
Proof.
  unfold Set_add. destruct (Set_has s v) eqn:Hhas.
  - split; [auto|]. intros [H | ->]; [exact H|].
    now apply Set_has_string.
  - rewrite in_app_iff. cbn. intuition congruence.
Qed.

Lemma likedSet_from (field : string) (snap : list profile) (acc : list value)
    (u : jsstring) :
  In (VStr u)
    (fold_left
       (fun set data =>
          if ToBoolean (prop data field) then Set_add set (prop data field)
          else set)
       snap acc)
  <-> In (VStr u) acc \/
      u <> [] /\ exists data, In data snap /\ prop data field = VStr u.
Proof.
  revert acc. induction snap as [|d snap IH]; intros acc; cbn [fold_left].
  - split; [auto|]. intros [H | (_ & data & [] & _)]. exact H.
  - rewrite IH. destruct (ToBoolean (prop d field)) eqn:Ht.
    + rewrite Set_add_string. split.
      * intros [[H | H] | (Hu & data & Hin & Hd)]; [now left | | right].
        -- right. split; [|exists d; split; [now left | exact H]].
           intros ->. rewrite H in Ht. discriminate.
        -- split; [exact Hu|]. exists data. split; [now right | exact Hd].
      * intros [H | (Hu & data & [<- | Hin] & Hd)]; [now left; left | |].
        -- left. now right.
        -- right. split; [exact Hu|]. now exists data.
    + split.
      * intros [H | (Hu & data & Hin & Hd)]; [now left | right].
        split; [exact Hu|]. exists data. split; [now right | exact Hd].
      * intros [H | (Hu & data & [<- | Hin] & Hd)]; [now left | |].
        -- rewrite Hd in Ht. destruct u; [congruence | discriminate].
        -- right. split; [exact Hu|]. now exists data.
Qed.

Lemma likedSet_In (field : string) (snap : list profile) (u : jsstring) :
  In (VStr u) (likedSet field snap) <->
  u <> [] /\ exists data, In data snap /\ prop data field = VStr u.
Proof.
  unfold likedSet. rewrite likedSet_from. split; [|auto].
  now intros [[] | H].
Qed.

Lemma where_eq_In (field : string) (uid : jsstring) (documents : list profile)
    (data : profile) :
  In data (where_eq field uid documents) <->
  In data documents /\ prop data field = VStr uid.
Proof. unfold where_eq. now rewrite filter_In, strict_eq_str_true. Qed.

Lemma mutualIds_In (likes : list profile) (me u : jsstring) :
  In (VStr u) (mutualIds likes me) <->
  u <> [] /\
  (exists d, In d likes /\
     prop d "fromUid" = VStr me /\ prop d "toUid" = VStr u) /\
  (exists d, In d likes /\
     prop d "fromUid" = VStr u /\ prop d "toUid" = VStr me).
Proof.
  unfold mutualIds. rewrite filter_In, Set_has_string, !likedSet_In.
  split.
  - intros ((Hu & d1 & H1 & Ht) & (_ & d2 & H2 & Hf)).
    apply where_eq_In in H1 as [H1 H1']. apply where_eq_In in H2 as [H2 H2'].
    split; [exact Hu|]. split; [exists d1 | exists d2]; auto.
  - intros (Hu & (d1 & H1 & Hf1 & Ht1) & (d2 & H2 & Hf2 & Ht2)).
    split; (split; [exact Hu|]); [exists d1 | exists d2];
      (split; [apply where_eq_In|]); auto.
Qed.

(** X15. An identifier is among the mutual matches of a user exactly when it
    is not empty, some like document goes from the user to it, and some
    like document goes from it to the user. *)
Theorem mutual_ids_are_mutual (likes : list profile) (me u : jsstring) :
  In (VStr u) (mutualIds likes me) <->
  u <> [] /\
  (exists d, In d likes /\
     prop d "fromUid" = VStr me /\ prop d "toUid" = VStr u) /\
  (exists d, In d likes /\
     prop d "fromUid" = VStr u /\ prop d "toUid" = VStr me).
Proof. apply mutualIds_In. Qed.

(** X16. Matching is symmetric: one user is among the mutual matches of
    another exactly when the other is among the first one's, on the same
    [likes] collection. *)
Theorem mutual_ids_symmetric (likes : list profile) (me u : jsstring) :
  me <> [] -> u <> [] ->
  (In (VStr u) (mutualIds likes me) <-> In (VStr me) (mutualIds likes u)).
Proof. intros Hme Hu. rewrite !mutualIds_In. tauto. Qed.

Lemma set_like_snoc (s : list value) (v : value) :
  set_like s -> (forall x, In x s -> same_value_zero v x = false) ->
  set_like (s ++ [v]).
Proof.
  induction s as [|x s IH]; intros Hs Hv; cbn.
  - split; [intros y []|exact I].
  - destruct Hs as [Hx Hs]. split.
    + intros y Hy. apply in_app_iff in Hy as [Hy | [<- | []]]; [auto|].
      apply Hv. now left.
    + apply IH; [exact Hs|]. intros y Hy. apply Hv. now right.
Qed.

Lemma set_like_add (s : list value) (v : value) :
  set_like s -> set_like (Set_add s v).
Proof.
  intros Hs. unfold Set_add. destruct (Set_has s v) eqn:Hhas; [exact Hs|].
  apply set_like_snoc; [exact Hs|]. intros x Hx.
  apply not_true_iff_false. intros Heq.
  apply not_true_iff_false in Hhas. apply Hhas.
  unfold Set_has. apply existsb_exists. eauto.
Qed.

Lemma likedSet_set_like (field : string) (snap : list profile) :
  set_like (likedSet field snap).
Proof.
  unfold likedSet.
  assert (H : forall acc, set_like acc ->
            set_like
              (fold_left
                 (fun set data =>
                    if ToBoolean (prop data field)
                    then Set_add set (prop data field) else set)
                 snap acc)).
  { induction snap as [|d snap IH]; intros acc Hacc; cbn; [exact Hacc|].
    apply IH. destruct (ToBoolean (prop d field)); [|exact Hacc].
    now apply set_like_add. }
  now apply H.
Qed.

Lemma likedSet_truthy (field : string) (snap : list profile) (v : value) :
  In v (likedSet field snap) -> ToBoolean v = true.
Proof.
  unfold likedSet.
  assert (H : forall acc, (forall x, In x acc -> ToBoolean x = true) ->
            forall x,
              In x (fold_left
                      (fun set data =>
                         if ToBoolean (prop data field)
                         then Set_add set (prop data field) else set)
                      snap acc) -> ToBoolean x = true).
  { induction snap as [|d snap IH]; intros acc Hacc; cbn; [exact Hacc|].
    apply IH. destruct (ToBoolean (prop d field)) eqn:Ht; [|exact Hacc].
    intros x. unfold Set_add. destruct (Set_has acc (prop d field)); [auto|].
    rewrite in_app_iff. intros [Hx | [<- | []]]; auto. }
  apply H. intros x [].
Qed.

Lemma same_value_zero_self (x y : value) :
  same_value_zero x y = true -> same_value_zero x x = true.
Proof.
  destruct x, y; cbn; try discriminate; try reflexivity; intros _.
  - now destruct b.
  - unfold is_nan. now destruct (x =? x)%float.
  - unfold jsstring_eqb. now apply bool_decide_eq_true.
Qed.

Lemma set_like_filter (P : value -> bool) (s : list value) :
  set_like s -> (forall x, P x = true -> same_value_zero x x = true) ->
  NoDup (List.filter P s).
Proof.
  intros Hs HP. induction s as [|x s IH]; cbn; [constructor|].
  destruct Hs as [Hx Hs]. destruct (P x) eqn:Hpx; [|now apply IH].
  constructor; [|now apply IH].
  intros Hin. apply list_elem_of_In, filter_In in Hin as [Hin _].
  specialize (HP x Hpx). rewrite (Hx x Hin) in HP. discriminate.
Qed.

(** X17. However many like documents go between two users, each mutual match
    is listed once; and no listed identifier is an empty or missing
    value. *)
Theorem mutual_ids_listed_once (likes : list profile) (me : jsstring) :
  NoDup (mutualIds likes me) /\
  Forall (fun uid => ToBoolean uid = true) (mutualIds likes me).
Proof.
  unfold mutualIds. split.
  - apply set_like_filter; [apply likedSet_set_like|].
    intros x Hx. unfold Set_has in Hx.
    apply existsb_exists in Hx as (y & _ & H).
    exact (same_value_zero_self _ _ H).
  - apply List.Forall_forall. intros v Hv. apply filter_In in Hv as [Hv _].
    exact (likedSet_truthy _ _ _ Hv).
Qed.
End MutualLikes.

(** ** The swipe page *)

Section Swiping.
Context {E : Engine}.
Import SwipePage.

Lemma with_id_other (docId : jsstring) (data : profile) (k : string) :
  k <> "id" -> with_id docId data !! k = data !! k.
Proof.
  intros Hk. unfold with_id. apply lookup_union_l.
  now apply lookup_singleton_ne.
Qed.

Lemma with_id_id (docId : jsstring) (data : profile) :
  data !! "id" = None -> prop (with_id docId data) "id" = VStr docId.
Proof.
  intros Hk. unfold prop, with_id. rewrite lookup_union_r by exact Hk.
  now rewrite lookup_singleton_eq.
Qed.

(** The identifier added to a document is not read by the scorer. *)
Lemma score_with_id (me : profile) (docId : jsstring) (data : profile) :
  calculateMatchScore me (with_id docId data) = calculateMatchScore me data.
Proof.
  unfold calculateMatchScore, budgetPoints, neighborhoodPoints,
    preferencePoints, overlapPoints, prop.
  now rewrite !with_id_other by done.
Qed.

Lemma shown_entry_fields (myData : profile) (d : jsstring * profile) :
  prop (shown_entry myData d) "matchScore"
  = VNum (calculateMatchScore myData (snd d)) /\
  (snd d !! "id" = None -> prop (shown_entry myData d) "id" = VStr (fst d)) /\
  (forall k, k <> "matchScore" -> k <> "id" ->
     shown_entry myData d !! k = snd d !! k).
Proof.
  unfold shown_entry, prop. split; [now rewrite lookup_insert_eq|]. split.
  - intros Hid. rewrite lookup_insert_ne by done.
    exact (with_id_id _ _ Hid).
  - intros k Hk Hk'. rewrite lookup_insert_ne by done.
    now apply with_id_other.
Qed.

(** X18. What the swipe page shows to a signed-in user who has a profile: one
    entry for every document of [users] other than the user's own, and no
    other entry; the entry holds the stored fields, the score of the stored
    document against the user's own, and the document's identifier as [id]
    when the document has no field of that name. The message is empty
    exactly when some entry is shown. *)
Theorem swipe_page_shows_the_others (uid : jsstring) (usersSnap : snapshot)
    (msg : string) (shown : list profile) :
  loadData (Some uid) usersSnap = LoadShow msg shown ->
  exists myData,
    getDoc usersSnap uid = Some myData /\
    Permutation shown
      (List.map (shown_entry myData)
         (List.filter (fun d => negb (jsstring_eqb (fst d) uid)) usersSnap)) /\
    (forall d, In d usersSnap ->
       prop (shown_entry myData d) "matchScore"
       = VNum (calculateMatchScore myData (snd d)) /\
       (snd d !! "id" = None ->
        prop (shown_entry myData d) "id" = VStr (fst d)) /\
       (forall k, k <> "matchScore" -> k <> "id" ->
          shown_entry myData d !! k = snd d !! k)) /\
    (msg = "" <-> shown <> []).
Proof.
  unfold loadData.
  destruct (getDoc usersSnap uid) as [myData|]; [|discriminate].
  intros [= <- <-]. exists myData. split; [reflexivity|].
  set (rest :=
         List.filter (fun d => negb (jsstring_eqb (fst d) uid)) usersSnap).
  assert (Hperm : Permutation
            (rankProfilesWithMatchScore myData (others usersSnap uid))
            (List.map (shown_entry myData) rest)).
  { rewrite rankProfilesWithMatchScore_eq.
    etransitivity; [apply sort_perm|].
    unfold others. fold rest. rewrite List.map_map.
    apply Permutation_refl'. apply List.map_ext. intros d.
    unfold scored, shown_entry. now rewrite score_with_id. }
  split; [exact Hperm|]. split; [intros d _; apply shown_entry_fields|].
  assert (Hlen :
            length (rankProfilesWithMatchScore myData (others usersSnap uid))
            = length (others usersSnap uid)).
  { rewrite (Permutation_length Hperm). unfold others. fold rest.
    now rewrite !length_map. }
  destruct (others usersSnap uid) as [|o os] eqn:Ho; cbn [length Nat.eqb].
  - destruct (rankProfilesWithMatchScore myData []); [|discriminate].
    split; [discriminate | congruence].
  - destruct (rankProfilesWithMatchScore myData (o :: os)); [discriminate|].
    split; [discriminate | reflexivity].
Qed.

Lemma handleSkip_step (st : swipe) :
  profiles (handleSkip st) = profiles st /\
  (currentIndex st < length (profiles st) ->
   currentIndex (handleSkip st) = S (currentIndex st)) /\
  (length (profiles st) <= currentIndex st -> handleSkip st = st).
Proof.
  unfold handleSkip, currentProfile, noMoreProfiles.
  destruct (Nat.leb_spec (length (profiles st)) (currentIndex st)) as [H | H];
    cbn [negb].
  - split; [reflexivity|]. split; [lia | reflexivity].
  - destruct (lookup_lt_is_Some_2 (profiles st) (currentIndex st) H) as [p Hp].
    rewrite Hp. cbn. split; [reflexivity|]. split; [lia | lia].
Qed.

Lemma currentProfile_Some (st : swipe) (p : profile) :
  currentProfile st = Some p <->
  currentIndex st < length (profiles st) /\
  profiles st !! currentIndex st = Some p.
Proof.
  unfold currentProfile, noMoreProfiles.
  destruct (Nat.leb_spec (length (profiles st)) (currentIndex st)) as [H | H];
    cbn [negb].
  - split; [discriminate | lia].
  - tauto.
Qed.

(** What a run of clicks keeps true, from the state [st0] on. *)
Lemma click_step_invariant (currentUser : option jsstring) (st0 : swipe)
    (s : swipe * list profile) (c : click) :
  (profiles (fst s) = profiles st0 /\
   currentIndex st0 <= currentIndex (fst s) <= length (profiles st0) /\
   List.map (fun l => prop l "toUid") (snd s)
     `sublist_of`
     List.map (fun p => prop p "id")
       (drop (currentIndex st0) (take (currentIndex (fst s)) (profiles st0))) /\
   Forall (fun l => exists uid,
             currentUser = Some uid /\ prop l "fromUid" = VStr uid) (snd s)) ->
  let s' := click_step currentUser s c in
  profiles (fst s') = profiles st0 /\
  currentIndex st0 <= currentIndex (fst s') <= length (profiles st0) /\
  List.map (fun l => prop l "toUid") (snd s')
    `sublist_of`
    List.map (fun p => prop p "id")
      (drop (currentIndex st0) (take (currentIndex (fst s')) (profiles st0))) /\
  Forall (fun l => exists uid,
            currentUser = Some uid /\ prop l "fromUid" = VStr uid) (snd s').
Proof.
  destruct s as [st written]. cbn [fst snd]. intros (Hp & Hi & Hsub & Hfrom).
  assert (Hnext : forall p, currentProfile st = Some p ->
            List.map (fun p => prop p "id")
              (drop (currentIndex st0)
                 (take (S (currentIndex st)) (profiles st0)))
            = List.map (fun p => prop p "id")
                (drop (currentIndex st0)
                   (take (currentIndex st) (profiles st0)))
              ++ [prop p "id"]).
  { intros p Hcur. apply currentProfile_Some in Hcur as [Hlt Hcur].
    rewrite Hp in Hcur, Hlt.
    rewrite (take_S_r _ _ _ Hcur).
    rewrite drop_app_le by (rewrite length_take; lia).
    now rewrite List.map_app. }
  destruct c as [|saved now]; cbn [click_step fst snd].
  - pose proof (handleSkip_step st) as (Hs1 & Hs2 & Hs3).
    destruct (Nat.lt_ge_cases (currentIndex st) (length (profiles st)))
      as [Hlt | Hge].
    + destruct (lookup_lt_is_Some_2 _ _ Hlt) as [p Hcur].
      assert (Hcp : currentProfile st = Some p)
        by now apply currentProfile_Some.
      rewrite Hs1, (Hs2 Hlt), (Hnext p Hcp).
      split; [exact Hp|]. split; [rewrite Hp in Hlt; lia|].
      split; [now apply sublist_inserts_r | exact Hfrom].
    + rewrite (Hs3 Hge). auto.
  - unfold handleConnect_like.
    destruct (currentProfile st) as [p|] eqn:Hcur; [|cbn; auto].
    destruct currentUser as [uid|]; [|cbn; auto].
    pose proof Hcur as Hlt. apply currentProfile_Some in Hlt as [Hlt _].
    cbn [fst snd]. unfold handleConnect_done.
    destruct saved; cbn [profiles currentIndex].
    + rewrite Nat.add_1_r, (Hnext p eq_refl).
      split; [exact Hp|]. split; [rewrite Hp in Hlt; lia|]. split.
      * rewrite List.map_app. apply sublist_app; [exact Hsub|].
        cbn. unfold prop at 1. rewrite lookup_insert_ne by done.
        rewrite lookup_insert_eq. reflexivity.
      * apply Forall_app. split; [exact Hfrom|].
        constructor; [|constructor]. exists uid. split; [reflexivity|].
        unfold prop. now rewrite lookup_insert_eq.
    + auto.
Qed.

(** X19. Through any run of clicks on "Skip" and "Connect", each handled
    before the next, the page never moves back nor past the end of the
    ranked list, and the likes it writes are from the signed-in user to
    profiles of the list between where the run began and where the page
    is now, in the order of the list, at most one for each. *)
Theorem swiping_walks_the_list (currentUser : option jsstring) (st : swipe)
    (clicks : list click) :
  currentIndex st <= length (profiles st) ->
  let after := fold_left (click_step currentUser) clicks (st, []) in
  profiles (fst after) = profiles st /\
  currentIndex st <= currentIndex (fst after) <= length (profiles st) /\
  List.map (fun l => prop l "toUid") (snd after)
    `sublist_of`
    List.map (fun p => prop p "id")
      (drop (currentIndex st)
         (take (currentIndex (fst after)) (profiles st))) /\
  Forall (fun l => exists uid,
            currentUser = Some uid /\ prop l "fromUid" = VStr uid)
    (snd after).
Proof.
  intros Hle.
  assert (H : forall s,
            (profiles (fst s) = profiles st /\
             currentIndex st <= currentIndex (fst s) <= length (profiles st) /\
             List.map (fun l => prop l "toUid") (snd s)
               `sublist_of`
               List.map (fun p => prop p "id")
                 (drop (currentIndex st)
                    (take (currentIndex (fst s)) (profiles st))) /\
             Forall (fun l => exists uid,
                       currentUser = Some uid /\ prop l "fromUid" = VStr uid)
               (snd s)) ->
            let after := fold_left (click_step currentUser) clicks s in
            profiles (fst after) = profiles st /\
            currentIndex st <= currentIndex (fst after)
              <= length (profiles st) /\
            List.map (fun l => prop l "toUid") (snd after)
              `sublist_of`
              List.map (fun p => prop p "id")
                (drop (currentIndex st)
                   (take (currentIndex (fst after)) (profiles st))) /\
            Forall (fun l => exists uid,
                      currentUser = Some uid /\ prop l "fromUid" = VStr uid)
              (snd after)).
  { induction clicks as [|c clicks IH]; intros s Hs; cbn [fold_left].
    - exact Hs.
    - apply IH. exact (click_step_invariant currentUser st s c Hs). }
  apply H. cbn [fst snd]. split; [reflexivity|]. split; [lia|].
  split; [apply sublist_nil_l | constructor].
Qed.

(** X20. Two users who each press "Connect" on the other's card are mutual
    matches of each other, whatever else the [likes] collection holds. *)
Theorem connect_both_ways_is_match (a b : jsstring) (stA stB : swipe)
    (pA pB likeA likeB : profile) (nowA nowB : float) (likes : list profile) :
  a <> [] -> b <> [] ->
  currentProfile stA = Some pB -> prop pB "id" = VStr b ->
  currentProfile stB = Some pA -> prop pA "id" = VStr a ->
  handleConnect_like (Some a) stA nowA = Some likeA ->
  handleConnect_like (Some b) stB nowB = Some likeB ->
  In likeA likes -> In likeB likes ->
  In (VStr b) (Matches.mutualIds likes a) /\
  In (VStr a) (Matches.mutualIds likes b).
Proof.
  intros Ha Hb HcA HidB HcB HidA HlA HlB HinA HinB.
  unfold handleConnect_like in HlA, HlB. rewrite HcA in HlA. rewrite HcB in HlB.
  injection HlA as <-. injection HlB as <-.
  assert (HA : forall u p now,
            prop (<["fromUid" := VStr u]>
                    (<["toUid" := prop p "id"]> {[ "createdAt" := VNum now ]}))
              "fromUid" = VStr u /\
            prop (<["fromUid" := VStr u]>
                    (<["toUid" := prop p "id"]> {[ "createdAt" := VNum now ]}))
              "toUid" = prop p "id").
  { intros u p now. unfold prop at 1 3. rewrite lookup_insert_eq.
    rewrite lookup_insert_ne by done. now rewrite lookup_insert_eq. }
  destruct (HA a pB nowA) as [HA1 HA2]. destruct (HA b pA nowB) as [HB1 HB2].
  rewrite HidB in HA2. rewrite HidA in HB2.
  split; apply mutualIds_In; (split; [assumption|]); split; eauto.
Qed.
End Swiping.

(** ** The home photos of the profile preview *)

Section HomePhotos.
Context {E : Engine}.

Lemma split_on_piece (c : N) (u rest : jsstring) :
  ~ In c u -> split_on c (u ++ c :: rest) = u :: split_on c rest.
Proof.
  induction u as [|x u IH]; intros Hu; cbn.
  - now rewrite N.eqb_refl.
  - destruct (N.eqb_spec x c) as [-> | Hx]; [exfalso; apply Hu; now left|].
    rewrite IH; [reflexivity|]. intros Hin. apply Hu. now right.
Qed.

Lemma split_on_last (c : N) (u : jsstring) :
  ~ In c u -> split_on c u = [u].
Proof.
  induction u as [|x u IH]; intros Hu; cbn; [reflexivity|].
  destruct (N.eqb_spec x c) as [-> | Hx]; [exfalso; apply Hu; now left|].
  rewrite IH; [reflexivity|]. intros Hin. apply Hu. now right.
Qed.

Lemma trim_after_space (v : jsstring) : tight v -> trim (32%N :: v) = v.
Proof.
  intros Hv.
  pose proof (trim_padding [32%N] v []) as H. rewrite app_nil_r in H.
  cbn [app] in H. rewrite H by (repeat constructor). now apply tight_trim.
Qed.

Lemma join_cons (sep u v : jsstring) (l : list jsstring) :
  join sep (u :: v :: l) = u ++ sep ++ join sep (v :: l).
Proof. reflexivity. Qed.

Lemma split_on_space (s : jsstring) (p : jsstring) (ps : list jsstring) :
  split_on 44 s = p :: ps -> split_on 44 (32%N :: s) = (32%N :: p) :: ps.
Proof. intros H. cbn [split_on]. rewrite H. reflexivity. Qed.

(** The pieces of a list joined by a comma and a space. *)
Lemma split_join (u : jsstring) (urls : list jsstring) :
  Forall (fun u => ~ In 44%N u) (u :: urls) ->
  split_on 44 (join [44%N; 32%N] (u :: urls))
  = u :: List.map (cons 32%N) urls.
Proof.
  revert u. induction urls as [|v urls IH]; intros u Hall.
  - apply List.Forall_inv in Hall. cbn [join List.map].
    now apply split_on_last.
  - rewrite join_cons. cbn [app].
    rewrite (split_on_piece _ _ _ (List.Forall_inv Hall)).
    rewrite (split_on_space _ _ _ (IH v (List.Forall_inv_tail Hall))).
    reflexivity.
Qed.

(** X21. Every home photo the preview shows is a non-empty text without white
    space at its ends, whether [homePhotos] is stored as an array or as
    one comma-separated text. *)
Theorem preview_photos_are_clean (loaded : option profile) :
  Forall (fun url => url <> [] /\ tight url) (ProfilePreview.homePhotos loaded).
Proof.
  unfold ProfilePreview.homePhotos. destruct loaded as [data|]; [|constructor].
  destruct (ToBoolean (prop data "homePhotos")); [|constructor].
  assert (H : forall l : list jsstring,
            Forall (fun url => url <> [] /\ tight url)
              (List.filter (fun s => (0 <? length s)%nat) (List.map trim l))).
  { intros l. apply List.Forall_forall. intros url Hurl.
    apply filter_In in Hurl as [Hin Hlen].
    apply in_map_iff in Hin as (s & <- & _). split; [|apply trim_tight].
    intros Heq. rewrite Heq in Hlen. discriminate. }
  destruct (prop data "homePhotos") as [| | | |s|l|]; cbn [Array_isArray];
    try constructor.
  - apply H.
  - cbn [elements]. rewrite <- (List.map_map ToString trim). apply H.
Qed.

(** X22. Photo addresses that are non-empty, without white space at their ends
    and without a comma are shown as they are, in order, both when stored
    as an array and when stored as one text, joined by a comma and a
    space. *)
Theorem preview_photos_both_forms (urls : list jsstring)
    (asText asArray : profile) :
  Forall (fun u => u <> [] /\ tight u /\ ~ In 44%N u) urls ->
  prop asText "homePhotos" = VStr (join (str ", ") urls) ->
  prop asArray "homePhotos" = VArr (List.map VStr urls) ->
  ProfilePreview.homePhotos (Some asText) = urls /\
  ProfilePreview.homePhotos (Some asArray) = urls.
Proof.
  intros Hall Ht Ha. unfold ProfilePreview.homePhotos. rewrite Ht, Ha.
  cbn [Array_isArray elements].
  assert (Hkeep : List.filter (fun s : jsstring => (0 <? length s)%nat) urls
                  = urls).
  { apply filter_keeps_all. intros u Hu.
    rewrite List.Forall_forall in Hall. destruct (Hall u Hu) as (Hne & _).
    destruct u; [congruence | reflexivity]. }
  split.
  - destruct urls as [|u urls]; [reflexivity|].
    assert (Htrue : ToBoolean (VStr (join (str ", ") (u :: urls))) = true).
    { pose proof (List.Forall_inv Hall) as (Hne & _).
      destruct u as [|c u]; [congruence|].
      destruct urls; reflexivity. }
    rewrite Htrue. change (str ", ") with [44%N; 32%N].
    rewrite (split_join u urls)
      by (eapply List.Forall_impl; [|exact Hall]; cbn; tauto).
    cbn [List.map]. rewrite List.map_map.
    rewrite (tight_trim u) by apply (List.Forall_inv Hall).
    replace (List.map (fun x => trim (32%N :: x)) urls) with urls;
      [exact Hkeep|].
    symmetry. rewrite <- (List.map_id urls) at 2. apply List.map_ext_in.
    intros v Hv. pose proof (List.Forall_inv_tail Hall) as Hrest.
    rewrite List.Forall_forall in Hrest.
    destruct (Hrest v Hv) as (_ & Htight & _).
    now apply trim_after_space.
  - change (ToBoolean (VArr (List.map VStr urls))) with true. cbn match.
    rewrite List.map_map.
    replace (List.map (fun x => trim (ToString (VStr x))) urls) with urls;
      [exact Hkeep|].
    symmetry. rewrite <- (List.map_id urls) at 2. apply List.map_ext_in.
    intros u Hu. rewrite List.Forall_forall in Hall.
    destruct (Hall u Hu) as (_ & Htight & _). now apply tight_trim.
Qed.
End HomePhotos.

(** ** The profile form and the ranker together *)

Section FormAndRanker.
Context {E : Engine}.
Import CreateProfile.

(** Entries whose scores are integers from 0 to 100 come out of the
    ranker sorted. *)
Lemma ranking_sorted_of_integers (viewer : profile)
    (candidates : list profile) :
  (forall c, In c candidates ->
     exists k, (0 <= k <= 100)%Z /\ calculateMatchScore viewer c = of_Z k) ->
  StronglySorted (fun a b => (matchScore b <=? matchScore a)%float = true)
    (rankProfilesWithMatchScore viewer candidates).
Proof.
  intros Hint. rewrite rankProfilesWithMatchScore_eq.
  set (cmp := fun a b => (matchScore b - matchScore a)%float).
  set (l := List.map (scored viewer) candidates).
  assert (Hok : Forall score_ok l).
  { apply List.Forall_forall. intros a Ha.
    apply in_map_iff in Ha as (c & <- & Hc).
    unfold score_ok. rewrite matchScore_scored.
    destruct (Hint c Hc) as (k & Hk & ->). eauto. }
  pose proof (sort_perm cmp l) as Hperm.
  assert (Hok' : Forall score_ok (sort cmp l)) by now rewrite Hperm.
  apply sorted_by_score; [exact Hok'|].
  exact (sort_sorted cmp (fun a => integer_part (matchScore a)) score_ok
           comparator_key l Hok).
Qed.

(** X23. For a viewer whose document the profile form alone has written,
    every score is an integer from 0 to 100 and the ranked list is sorted by
    score, highest first, whatever the candidates' documents hold: the
    viewer has no budget, so the budget block never divides. (The tag lists
    have fewer than [2^32] entries, as every array has.) *)
Theorem form_viewer_ranks_well (currentUser : option jsstring) (st : form)
    (uid : jsstring) (data old : profile) (candidates : list profile) :
  handleSaveProfile currentUser st = SaveSetDoc uid data ->
  old !! "budget" = None ->
  (Z.of_nat (length (neighborhoods st)) < 2 ^ 32)%Z ->
  (Z.of_nat (length (roommatePreferences st)) < 2 ^ 32)%Z ->
  (forall c, exists k,
     (0 <= k <= 100)%Z /\
     calculateMatchScore (setDoc_merge data old) c = of_Z k) /\
  StronglySorted (fun a b => (matchScore b <=? matchScore a)%float = true)
    (rankProfilesWithMatchScore (setDoc_merge data old) candidates).
Proof.
  intros H Hold Hn Hp.
  assert (Hscore : forall c, exists k,
            (0 <= k <= 100)%Z /\
            calculateMatchScore (setDoc_merge data old) c = of_Z k).
  { intros c.
    pose proof (handleSaveProfile_user _ _ _ _ H) as ->.
    destruct (saved_fields _ _ _ H) as (n & a & b & _ & _ & _ & _ & Hdata).
    destruct (saved_fields_lookup st n a b old)
      as (_ & _ & _ & _ & _ & _ & _ & H8 & H9 & Hb).
    rewrite <- Hdata in H8, H9, Hb.
    apply score_integer.
    - rewrite H8. exact Hn.
    - rewrite H9. exact Hp.
    - left. unfold prop, setDoc_merge.
      rewrite lookup_union_r by exact Hb. rewrite Hold. reflexivity. }
  split; [exact Hscore|].
  apply ranking_sorted_of_integers. intros c _. apply Hscore.
Qed.
End FormAndRanker.

(** ** Order and repetition of labels *)

Section LabelOrder.
Context {E : Engine}.

Lemma includes_same_entries (l l' : list jsstring) (s : jsstring) :
  (forall t, In t l <-> In t l') -> includes l s = includes l' s.
Proof.
  intros H. apply eq_true_iff_eq. rewrite !includes_In. apply H.
Qed.

Lemma asArrayOfLowercase_same_entries (l l' : list value) :
  (forall v, In v l <-> In v l') ->
  forall s, In s (asArrayOfLowercase (VArr l))
            <-> In s (asArrayOfLowercase (VArr l')).
Proof.
  intros H s. rewrite !asArrayOfLowercase_In.
  split; intros (Hs & v & Hv & Hn); (split; [exact Hs|]); exists v;
    (split; [apply H; exact Hv | exact Hn]).
Qed.

Lemma filter_perm {A} (f : A -> bool) (l l' : list A) :
  Permutation l l' -> Permutation (List.filter f l) (List.filter f l').
Proof.
  induction 1 as [|x l l' _ IH|x y l|l l' l'' _ IH1 _ IH2]; cbn.
  - constructor.
  - destruct (f x); [now constructor | exact IH].
  - destruct (f x), (f y); try reflexivity. apply perm_swap.
  - now transitivity (List.filter f l').
Qed.

Lemma asArrayOfLowercase_perm (l l' : list value) :
  Permutation l l' ->
  Permutation (asArrayOfLowercase (VArr l)) (asArrayOfLowercase (VArr l')).
Proof.
  intros H. rewrite !asArrayOfLowercase_array.
  apply filter_perm. now apply Permutation_map.
Qed.

Lemma nonempty_same_entries {A} (l l' : list A) :
  (forall t, In t l <-> In t l') ->
  (0 <? length l)%nat = (0 <? length l')%nat.
Proof.
  intros H. destruct l as [|x l], l' as [|y l']; try reflexivity.
  - destruct (proj2 (H y) (or_introl eq_refl)).
  - destruct (proj1 (H x) (or_introl eq_refl)).
Qed.

(** X24. A sub-score for shared labels does not depend on the order of
    either list, nor on how often the candidate's list repeats a label: it
    is the same for two viewers whose lists are permutations of each other,
    against two candidates whose lists have the same entries. This holds
    for [neighborhoods] (weight 35, neutral 18) and for
    [roommatePreferences] (weight 25, neutral 12), which are the same
    block of code. *)
Theorem label_order_is_irrelevant (field : string) (weight neutral : float)
    (A A' B B' : profile) (la la' lb lb' : list value) :
  prop A field = VArr la -> prop A' field = VArr la' ->
  prop B field = VArr lb -> prop B' field = VArr lb' ->
  Permutation la la' ->
  (forall v, In v lb <-> In v lb') ->
  overlapPoints field weight neutral A B
  = overlapPoints field weight neutral A' B'.
Proof.
  intros HA HA' HB HB' Hperm Hsame.
  unfold overlapPoints. rewrite HA, HA', HB, HB'.
  pose proof (asArrayOfLowercase_perm _ _ Hperm) as Hp.
  pose proof (asArrayOfLowercase_same_entries _ _ Hsame) as Hs.
  rewrite (nonempty_same_entries _ _ Hs).
  rewrite (Permutation_length Hp).
  assert (Hshared :
            length (List.filter
                      (fun n => includes (asArrayOfLowercase (VArr lb)) n)
                      (asArrayOfLowercase (VArr la)))
            = length (List.filter
                        (fun n => includes (asArrayOfLowercase (VArr lb')) n)
                        (asArrayOfLowercase (VArr la')))).
  { rewrite (List.filter_ext _
               (fun n => includes (asArrayOfLowercase (VArr lb')) n)
               (fun n => includes_same_entries _ _ n Hs)).
    apply Permutation_length. now apply filter_perm. }
  now rewrite Hshared.
Qed.
End LabelOrder.

(** ** The theorems on concrete profiles, with the reference engine *)

Section OnReferenceEngine.
#[local] Existing Instance Reference.engine.

Lemma invalid_budget_neutral_witness :
  (unusable_budget (prop Examples.word_budget "budget") \/
   unusable_budget (prop Examples.kolej_candidate "budget")) /\
  budgetPoints Examples.word_budget Examples.kolej_candidate = 20%float /\
  exists k : Z, (0 <= k <= 100)%Z /\
    calculateMatchScore Examples.word_budget Examples.kolej_candidate
    = of_Z k.
Proof.
  assert (H : unusable_budget (prop Examples.word_budget "budget") \/
              unusable_budget (prop Examples.kolej_candidate "budget")).
  { left. right. right. evaluate. }
  destruct (invalid_budget_neutral Examples.word_budget
              Examples.kolej_candidate H) as (Hb & _ & Hk).
  split; [exact H|]. split; [exact Hb|]. apply Hk; evaluate.
Defined.

(** C4, as first stated, fails: both neighborhood lists are non-empty and
    the only entry of the viewer's, ["  "], normalizes to the same text
    as the candidate's first entry, [" "], yet the sub-score is 18. *)
Lemma blank_neighborhoods_counterexample :
  prop Examples.blank_lists "neighborhoods" = VArr [VStr (str "  ")] /\
  prop Examples.blank_then_kolej "neighborhoods"
    = VArr [VStr (str " "); VStr (str "Kolej")] /\
  Forall (fun a => Exists (fun b => normalize a = normalize b)
                     [VStr (str " "); VStr (str "Kolej")])
    [VStr (str "  ")] /\
  neighborhoodPoints Examples.blank_lists Examples.blank_then_kolej
    = 18%float /\
  (18 =? 35)%float = false.
Proof.
  split; [evaluate|].
  split; [evaluate|].
  split; [|split; evaluate].
  constructor; [|constructor]. constructor. evaluate.
Qed.

Lemma shared_neighborhoods_full_witness :
  neighborhoodPoints Examples.kolej_viewer Examples.matching_candidate
    = 35%float.
Proof.
  apply (shared_neighborhoods_full Examples.kolej_viewer
           Examples.matching_candidate
           [VStr (str "Kolej")] [VStr (str " KOLEJ ")]).
  - evaluate.
  - evaluate.
  - evaluate.
  - exists (VStr (str "Kolej")). split; [now left|]. vm_compute. discriminate.
  - intros a [<- | []]. exists (VStr (str " KOLEJ ")).
    split; [now left|]. evaluate.
Defined.

Lemma score_reads_three_fields_witness :
  calculateMatchScore Examples.kolej_viewer Examples.kolej_candidate
  = calculateMatchScore Examples.kolej_viewer
      Examples.kolej_candidate_renamed.
Proof.
  apply score_reads_three_fields; evaluate.
Defined.

Lemma zero_budget_neutral_witness :
  is_zero (ToNumber (prop Examples.zero_budget "budget")) = true /\
  budgetPoints Examples.zero_budget Examples.kolej_candidate = 20%float.
Proof.
  assert (H : is_zero (ToNumber (prop Examples.zero_budget "budget")) = true)
    by evaluate.
  split; [exact H|].
  exact (proj2 (zero_budget_neutral Examples.zero_budget
                  Examples.kolej_candidate (or_introl H))).
Defined.

Lemma blank_lists_neutral_witness :
  Forall blank_entry Examples.blank_entries /\
  neighborhoodPoints Examples.kolej_viewer Examples.only_blank_entries
    = 18%float.
Proof.
  assert (H : Forall blank_entry Examples.blank_entries).
  { repeat constructor.
    - exists (str "  "). split; [reflexivity|]. repeat constructor.
    - exists []. split; [reflexivity|]. constructor. }
  assert (Hp : prop Examples.only_blank_entries "neighborhoods"
               = VArr Examples.blank_entries) by evaluate.
  split; [exact H|].
  exact (proj1 (proj2 (blank_lists_neutral Examples.kolej_viewer
                         Examples.only_blank_entries Examples.blank_entries
                         H))
           (or_intror Hp)).
Defined.

Lemma getChatId_canonical_witness :
  getChatId (VStr (str "uidB")) (VStr (str "uidA"))
  = getChatId (VStr (str "uidA")) (VStr (str "uidB")).
Proof.
  apply (getChatId_canonical (str "uidB") (str "uidA")); discriminate.
Defined.
Lemma score_in_range_witness :
  exists k : Z, (0 <= k <= 100)%Z /\
    calculateMatchScore Examples.kolej_viewer Examples.text_budget = of_Z k.
Proof.
  apply score_in_range; evaluate.
Defined.

Lemma equal_budgets_full_witness :
  budgetPoints Examples.kolej_viewer Examples.text_budget = 40%float.
Proof.
  apply (equal_budgets_full Examples.kolej_viewer Examples.text_budget 2000);
    evaluate.
Defined.

Lemma unset_viewer_scores_50_witness :
  calculateMatchScore Examples.blank_candidate Examples.kolej_candidate
  = 50%float.
Proof.
  apply unset_viewer_scores_50; evaluate.
Defined.

Lemma ranking_sorted_stable_witness :
  StronglySorted (fun a b => (matchScore b <=? matchScore a)%float = true)
    (rankProfilesWithMatchScore Examples.kolej_viewer
       [Examples.blank_candidate; Examples.kolej_candidate;
        Examples.budget_candidate; Examples.matching_candidate]).
Proof.
  apply ranking_sorted_stable.
  intros c [<- | [<- | [<- | [<- | []]]]]; evaluate.
Defined.

(** The two worked examples of the specification: equal budgets with
    every label shared score 100; budgets 1000 and 2000 with nothing else
    set score 0 + 18 + 12 = 30. *)
Theorem worked_examples :
  calculateMatchScore Examples.kolej_viewer Examples.kolej_candidate
    = 100%float /\
  budgetPoints (Examples.with_budget 1000) (Examples.with_budget 2000)
    = 0%float /\
  calculateMatchScore (Examples.with_budget 1000) (Examples.with_budget 2000)
    = 30%float.
Proof.
  split; [evaluate|]. split; evaluate.
Qed.
End OnReferenceEngine.

(** ** The pages on concrete input, with the reference engine *)

#[local] Existing Instance Reference.engine.

Lemma university_email_ignores_padding_witness :
  AuthPage.isUniversityEmail (str "  " ++ str "Ada@Metu.EDU.TR" ++ str " ")
  = AuthPage.isUniversityEmail (str "Ada@Metu.EDU.TR").
Proof.
  apply university_email_ignores_padding; repeat constructor.
Defined.

Lemma chat_room_identifies_pair_witness :
  (exists room,
     ChatPage.setupChat (Some Scenarios.bora) (VStr Scenarios.ada)
     = ChatPage.SetupChatId (VStr room) /\
     ChatPage.setupChat (Some Scenarios.ada) (VStr Scenarios.bora)
     = ChatPage.SetupChatId (VStr room)) /\
  (ChatPage.setupChat (Some Scenarios.bora) (VStr Scenarios.ada)
   = ChatPage.setupChat (Some Scenarios.ada) (VStr Scenarios.cem) <->
   Scenarios.bora = Scenarios.ada /\ Scenarios.ada = Scenarios.cem \/
   Scenarios.bora = Scenarios.cem /\ Scenarios.ada = Scenarios.ada).
Proof.
  apply chat_room_identifies_pair; try discriminate;
    apply not_In_forallb; evaluate.
Defined.

Lemma sent_message_is_trimmed_witness :
  exists text,
    prop (<["text" := VStr (str "Hi!")]>
            (<["fromUid" := VStr Scenarios.ada]>
               (<["toUid" := VStr Scenarios.bora]>
                  {[ "createdAt" := VNull ]})))
      "text" = VStr text /\
    text = trim (str "  Hi! ") /\ text <> [] /\ tight text.
Proof.
  assert (H : ChatPage.handleSend (VStr (str "uidAda_uidBora"))
                (Some Scenarios.ada) (VStr Scenarios.bora) (str "  Hi! ")
                VNull
              = Some (VStr (str "uidAda_uidBora"),
                      <["text" := VStr (str "Hi!")]>
                        (<["fromUid" := VStr Scenarios.ada]>
                           (<["toUid" := VStr Scenarios.bora]>
                              {[ "createdAt" := VNull ]}))))
    by reflexivity.
  exact (proj1 (proj2 (proj2 (sent_message_is_trimmed _ _ _ _ _ _ _ H)))).
Defined.

Lemma tag_lists_stay_clean_witness :
  clean_tags
    (CreateProfile.neighborhoods
       (fold_left CreateProfile.tag_step Scenarios.tag_session
          CreateProfile.initial)) /\
  clean_tags
    (CreateProfile.roommatePreferences
       (fold_left CreateProfile.tag_step Scenarios.tag_session
          CreateProfile.initial)).
Proof.
  apply tag_lists_stay_clean; (split; [apply NoDup_nil_2 | constructor]).
Defined.


Lemma saved_profile_leaves_budget_witness :
  budgetPoints (setDoc_merge Scenarios.ada_document Scenarios.older_document)
    Examples.kolej_candidate = 20%float /\
  budgetPoints Examples.kolej_candidate
    (setDoc_merge Scenarios.ada_document Scenarios.older_document) = 20%float.
Proof.
  assert (H : CreateProfile.handleSaveProfile (Some Scenarios.ada)
                Scenarios.filled_form
              = CreateProfile.SaveSetDoc Scenarios.ada Scenarios.ada_document)
    by reflexivity.
  assert (Hold : Scenarios.older_document !! "budget" = None)
    by reflexivity.
  exact (proj2 (proj2 (saved_profile_leaves_budget _ _ _ _ H))
           Scenarios.older_document Examples.kolej_candidate Hold).
Defined.



Lemma mutual_ids_symmetric_witness :
  In (VStr Scenarios.bora) (Matches.mutualIds Scenarios.likes Scenarios.ada)
  <->
  In (VStr Scenarios.ada) (Matches.mutualIds Scenarios.likes Scenarios.bora).
Proof.
  apply mutual_ids_symmetric; discriminate.
Defined.

Lemma swipe_page_shows_the_others_witness :
  exists myData,
    getDoc Scenarios.users Scenarios.ada = Some myData /\
    Permutation
      (rankProfilesWithMatchScore Examples.kolej_viewer
         (SwipePage.others Scenarios.users Scenarios.ada))
      (List.map (SwipePage.shown_entry myData)
         [(Scenarios.bora, Examples.budget_candidate);
          (Scenarios.cem, Examples.matching_candidate)]).
Proof.
  assert (H : SwipePage.loadData (Some Scenarios.ada) Scenarios.users
              = SwipePage.LoadShow ""
                  (rankProfilesWithMatchScore Examples.kolej_viewer
                     (SwipePage.others Scenarios.users Scenarios.ada)))
    by reflexivity.
  destruct (swipe_page_shows_the_others _ _ _ _ H) as (myData & H1 & H2 & _).
  exists myData. split; [exact H1 | exact H2].
Defined.

Lemma swiping_walks_the_list_witness :
  SwipePage.currentIndex
    (fst (fold_left (SwipePage.click_step (Some Scenarios.ada))
            Scenarios.clicks (Scenarios.first_card, [])))
  <= length (SwipePage.profiles Scenarios.first_card) /\
  Forall (fun l => exists uid,
            Some Scenarios.ada = Some uid /\ prop l "fromUid" = VStr uid)
    (snd (fold_left (SwipePage.click_step (Some Scenarios.ada))
            Scenarios.clicks (Scenarios.first_card, []))).
Proof.
  assert (H : SwipePage.currentIndex Scenarios.first_card
              <= length (SwipePage.profiles Scenarios.first_card))
    by (vm_compute; lia).
  destruct (swiping_walks_the_list (Some Scenarios.ada) Scenarios.first_card
              Scenarios.clicks H) as (_ & H2 & _ & H4).
  split; [apply H2 | exact H4].
Defined.

Lemma connect_both_ways_is_match_witness :
  In (VStr Scenarios.bora) (Matches.mutualIds Scenarios.likes Scenarios.ada) /\
  In (VStr Scenarios.ada) (Matches.mutualIds Scenarios.likes Scenarios.bora).
Proof.
  assert (Ha : Scenarios.ada <> []) by discriminate.
  assert (Hb : Scenarios.bora <> []) by discriminate.
  assert (H1 : SwipePage.currentProfile Scenarios.ada_page
               = Some (with_id Scenarios.bora Examples.budget_candidate))
    by reflexivity.
  assert (H2 : prop (with_id Scenarios.bora Examples.budget_candidate) "id"
               = VStr Scenarios.bora) by reflexivity.
  assert (H3 : SwipePage.currentProfile Scenarios.bora_page
               = Some (with_id Scenarios.ada Examples.kolej_viewer))
    by reflexivity.
  assert (H4 : prop (with_id Scenarios.ada Examples.kolej_viewer) "id"
               = VStr Scenarios.ada) by reflexivity.
  assert (H5 : SwipePage.handleConnect_like (Some Scenarios.ada)
                 Scenarios.ada_page 3000
               = Some (Scenarios.like Scenarios.ada Scenarios.bora 3000))
    by reflexivity.
  assert (H6 : SwipePage.handleConnect_like (Some Scenarios.bora)
                 Scenarios.bora_page 2000
               = Some (Scenarios.like Scenarios.bora Scenarios.ada 2000))
    by reflexivity.
  assert (H7 : In (Scenarios.like Scenarios.ada Scenarios.bora 3000)
                 Scenarios.likes) by (right; right; now left).
  assert (H8 : In (Scenarios.like Scenarios.bora Scenarios.ada 2000)
                 Scenarios.likes) by (right; now left).
  exact (connect_both_ways_is_match _ _ _ _ _ _ _ _ _ _ _
           Ha Hb H1 H2 H3 H4 H5 H6 H7 H8).
Defined.

Lemma preview_photos_both_forms_witness :
  ProfilePreview.homePhotos
    (Some {[ "homePhotos" := VStr (join (str ", ") Scenarios.photos) ]})
  = Scenarios.photos /\
  ProfilePreview.homePhotos
    (Some {[ "homePhotos" := VArr (List.map VStr Scenarios.photos) ]})
  = Scenarios.photos.
Proof.
  apply preview_photos_both_forms; [|evaluate|evaluate].
  repeat constructor; try discriminate;
    try (apply tightb_tight; evaluate);
    apply not_In_forallb; evaluate.
Defined.

Lemma form_viewer_ranks_well_witness :
  StronglySorted (fun a b => (matchScore b <=? matchScore a)%float = true)
    (rankProfilesWithMatchScore
       (setDoc_merge Scenarios.ada_document Scenarios.older_document)
       [Examples.unbounded_viewer; Examples.kolej_candidate;
        Examples.huge_budget]).
Proof.
  assert (H : CreateProfile.handleSaveProfile (Some Scenarios.ada)
                Scenarios.filled_form
              = CreateProfile.SaveSetDoc Scenarios.ada Scenarios.ada_document)
    by reflexivity.
  assert (Hold : Scenarios.older_document !! "budget" = None)
    by reflexivity.
  assert (Hn : (Z.of_nat (length (CreateProfile.neighborhoods
                                    Scenarios.filled_form)) < 2 ^ 32)%Z)
    by evaluate.
  assert (Hp : (Z.of_nat (length (CreateProfile.roommatePreferences
                                    Scenarios.filled_form)) < 2 ^ 32)%Z)
    by evaluate.
  exact (proj2 (form_viewer_ranks_well (Some Scenarios.ada)
                  Scenarios.filled_form Scenarios.ada Scenarios.ada_document
                  Scenarios.older_document _ H Hold Hn Hp)).
Defined.

Lemma label_order_is_irrelevant_witness :
  neighborhoodPoints
    {[ "neighborhoods" := Examples.labels ["Kolej"; "Tunal"] ]}
    {[ "neighborhoods" := Examples.labels ["Kolej"] ]}
  = neighborhoodPoints
      {[ "neighborhoods" := Examples.labels ["Tunal"; "Kolej"] ]}
      {[ "neighborhoods" := Examples.labels ["Kolej"; "Kolej"] ]}.
Proof.
  apply (label_order_is_irrelevant "neighborhoods" 35 18 _ _ _ _
           [VStr (str "Kolej"); VStr (str "Tunal")]
           [VStr (str "Tunal"); VStr (str "Kolej")]
           [VStr (str "Kolej")]
           [VStr (str "Kolej"); VStr (str "Kolej")]);
    try reflexivity.
  - apply perm_swap.
  - intros v. cbn. tauto.
Defined.
